(** * The docker runner of the ArangoDB starter (service/runner_docker.go)

    A shallow embedding of [dockerRunner], its container handle
    [dockerContainer] and its garbage collector, together with the
    properties of the container registry that the design document states.

    Conventions of the embedding:
    - the docker daemon and the wall clock are an abstract, stateful
      [World]; every client call takes a world and returns the next one
      together with its answer, so nothing is assumed about the daemon;
    - a [time.Time] is the instant it denotes, a number of nanoseconds in
      [Z]; a [time.Duration] is a signed 64-bit integer, and [-d] wraps;
    - a Go [map] that can be [nil] is an [option] of a [gmap]: reading,
      ranging over and deleting from a nil map are fine, writing panics;
    - the mutex is not modelled: each operation is taken as atomic. *)

From Stdlib Require Import ZArith Ascii DecimalString.
From Stdlib Require DecimalPos DecimalZ.
From stdpp Require Import gmap strings list.

Local Open Scope Z_scope.

(** ** Errors *)

(** The error values that reach this file: docker's [*NoSuchContainer],
    any other error of the client, and errgo's [*Err], which wraps an
    underlying error and carries a cause, or has its cause masked (nil). *)
Inductive error : Type :=
  | NoSuchContainer (id : string)
  | ClientError (msg : string)
  | ErrgoErr (cause underlying : error)
  | ErrgoMasked (underlying : error).

(** [errgo.Cause]: the cause of an errgo error that has one, else the
    error itself. *)
Definition errgo_Cause (err : error) : error :=
  match err with
  | ErrgoErr c _ => c
  | _ => err
  end.

(** The type assertion of [err] to docker's [*NoSuchContainer]. *)
Definition is_NoSuchContainer_value (err : error) : bool :=
  match err with
  | NoSuchContainer _ => true
  | _ => false
  end.

Definition isNoSuchContainer (err : error) : bool :=
  if is_NoSuchContainer_value err then true
  else if is_NoSuchContainer_value (errgo_Cause err) then true
  else false.

(** What a call that may panic leaves to its caller. *)
Inductive outcome (A : Type) : Type :=
  | Ok (a : A)
  | Err (err : error)
  | Panic.
Arguments Ok {A} a.
Arguments Err {A} err.
Arguments Panic {A}.

(** ** Time *)

Definition int64_min : Z := - 2 ^ 63.
Definition int64_max : Z := 2 ^ 63 - 1.

Definition wrap64 (z : Z) : Z := (z + 2 ^ 63) mod 2 ^ 64 - 2 ^ 63.

(** Unary minus on a [time.Duration]. *)
Definition neg_Duration (d : Z) : Z := wrap64 (- d).

(** [t.Add(d)] and [t.Before(u)] on instants. *)
Definition time_Add (t d : Z) : Z := t + d.
Definition time_Before (t u : Z) : bool := t <? u.

(** ** The data of the docker client *)

Record docker_State : Type := {
  StateString : string;   (* what [State.StateString()] answers *)
  FinishedAt : Z
}.

Record docker_Container : Type := {
  ID : string;
  Created : Z;
  State : docker_State
}.

Record docker_PortBinding : Type := {
  HostIP : string;
  HostPort : string
}.

Record docker_Config : Type := {
  Image : string;
  Entrypoint : list string;
  Cmd : list string;
  Tty : bool;
  User : string;
  ExposedPorts : gset string
}.

Record docker_HostConfig : Type := {
  PortBindings : gmap string (list docker_PortBinding);
  PublishAllPorts : bool;
  AutoRemove : bool;
  VolumesFrom : list string;
  Binds : list string
}.

Record docker_CreateContainerOptions : Type := {
  Name : string;
  Config : docker_Config;
  HostConfig : docker_HostConfig
}.

Record docker_PullImageOptions : Type := {
  Repository : string;
  Tag : string
}.

Record docker_RemoveContainerOptions : Type := {
  rmID : string;
  Force : bool
}.

(** Modelled from the spec: the [Volume] struct is declared elsewhere in
    package service; a volume specification is a host path, a container
    path and a read-only flag. *)
Record Volume : Type := {
  HostPath : string;
  ContainerPath : string;
  ReadOnly : bool
}.

(** ** The outside world *)

(** The calls of [*docker.Client] that the runner makes, [time.Now],
    [time.Sleep] and [docker.ParseRepositoryTag]. *)
Class DockerClient (World : Type) : Type := {
  time_Now : World → World * Z;
  time_Sleep : World → Z → World;
  ParseRepositoryTag : string → string * string;
  PullImage : World → docker_PullImageOptions → World * option error;
  CreateContainer :
    World → docker_CreateContainerOptions → World * (docker_Container + error);
  StartContainer : World → string → docker_HostConfig → World * option error;
  InspectContainer : World → string → World * (docker_Container + error);
  RemoveContainer : World → docker_RemoveContainerOptions → World * option error;
  StopContainer : World → string → Z → World * option error;
  KillContainer : World → string → World * option error;
  WaitContainer : World → string → World
}.

(** A client call with its answer, as kept in the call trace. *)
Inductive api_call : Type :=
  | CallPull (opts : docker_PullImageOptions) (res : option error)
  | CallCreate (opts : docker_CreateContainerOptions)
      (res : docker_Container + error)
  | CallStart (id : string) (hc : docker_HostConfig) (res : option error)
  | CallInspect (id : string) (res : docker_Container + error)
  | CallRemove (opts : docker_RemoveContainerOptions) (res : option error)
  | CallStop (id : string) (timeout : Z) (res : option error)
  | CallKill (id : string) (res : option error)
  | CallWait (id : string).

(** One call of the logger: level, format string, arguments. *)
Inductive log_arg : Type :=
  | ArgS (s : string)
  | ArgE (err : error).

Inductive log_entry : Type :=
  | Debugf (fmt : string) (args : list log_arg)
  | Infof (fmt : string) (args : list log_arg)
  | Warningf (fmt : string) (args : list log_arg).

(** Everything outside the runner: the world, what was logged and which
    client calls were made (both oldest first). *)
Record env (World : Type) : Type := {
  world : World;
  logged : list log_entry;
  calls : list api_call
}.
Arguments world {World} e.
Arguments logged {World} e.
Arguments calls {World} e.

(** ** The runner *)

(** [dockerRunner] without its logger, client and mutex; [gcStarted] is
    the state of [gcOnce]. *)
Record dockerRunner : Type := {
  image : string;
  user : string;
  volumesFrom : string;
  containerIDs : option (gmap string Z);
  gcStarted : bool;
  gcDelay : Z
}.

Record dockerContainer : Type := {
  container : docker_Container
}.

Definition stopContainerTimeout : Z := 60.

Definition set_containerIDs (r : dockerRunner) (m : option (gmap string Z))
  : dockerRunner :=
  {| image := image r; user := user r; volumesFrom := volumesFrom r;
     containerIDs := m; gcStarted := gcStarted r; gcDelay := gcDelay r |}.

Definition gcOnce_Do (r : dockerRunner) : dockerRunner :=
  {| image := image r; user := user r; volumesFrom := volumesFrom r;
     containerIDs := containerIDs r; gcStarted := true; gcDelay := gcDelay r |}.

(** The identifiers in the registry; a nil map has none. *)
Definition registered (r : dockerRunner) : gset string :=
  match containerIDs r with
  | Some m => dom m
  | None => ∅
  end.

(** The keys a [range] over the map visits.  Go leaves the order open;
    the loops below are defined on any list of keys. *)
Definition range_keys (m : option (gmap string Z)) : list (string * Z)%type :=
  match m with
  | Some m => map_to_list m
  | None => []
  end.

Definition GetContainerDir (r : dockerRunner) (hostDir : string) : string :=
  if negb (String.eqb (volumesFrom r) EmptyString) then hostDir else "/data".

(** [strings.Replace(s, old, new, -1)] for a one-byte [old]. *)
Fixpoint strings_Replace_byte (s : string) (old : ascii) (new : string)
  : string :=
  match s with
  | EmptyString => EmptyString
  | String c s' =>
      if Ascii.eqb c old then new +:+ strings_Replace_byte s' old new
      else String c (strings_Replace_byte s' old new)
  end.

(** [strconv.Itoa], and [%d] of [fmt.Sprintf]. *)
Definition strconv_Itoa (p : Z) : string := NilZero.string_of_int (Z.to_int p).

(** The body of the loop over [volumes] in [Start]. *)
Definition volume_bind (v : Volume) : string :=
  let bind := HostPath v +:+ ":" +:+ ContainerPath v in
  if ReadOnly v then bind +:+ ":ro" else bind.

Definition append_bind (opts : docker_CreateContainerOptions) (v : Volume)
  : docker_CreateContainerOptions :=
  let hc := HostConfig opts in
  {| Name := Name opts; Config := Config opts;
     HostConfig :=
       {| PortBindings := PortBindings hc;
          PublishAllPorts := PublishAllPorts hc;
          AutoRemove := AutoRemove hc;
          VolumesFrom := VolumesFrom hc;
          Binds := Binds hc ++ [volume_bind v] |} |}.

(** The body of the loop over [ports] in [Start]. *)
Definition publish_port (opts : docker_CreateContainerOptions) (p : Z)
  : docker_CreateContainerOptions :=
  let dockerPort := strconv_Itoa p +:+ "/tcp" in
  let cfg := Config opts in
  let hc := HostConfig opts in
  {| Name := Name opts;
     Config :=
       {| Image := Image cfg; Entrypoint := Entrypoint cfg; Cmd := Cmd cfg;
          Tty := Tty cfg; User := User cfg;
          ExposedPorts := {[ dockerPort ]} ∪ ExposedPorts cfg |};
     HostConfig :=
       {| PortBindings :=
            <[ dockerPort :=
                 [ {| HostIP := "0.0.0.0"; HostPort := strconv_Itoa p |} ] ]>
              (PortBindings hc);
          PublishAllPorts := PublishAllPorts hc;
          AutoRemove := AutoRemove hc;
          VolumesFrom := VolumesFrom hc;
          Binds := Binds hc |} |}.

(** The creation request of [Start] (lines 75 to 112): the options as
    first built, then the volumes, then the ports. *)
Definition initial_options (r : dockerRunner) (command : string)
    (args : list string) (containerName : string)
  : docker_CreateContainerOptions :=
  {| Name := containerName;
     Config :=
       {| Image := image r; Entrypoint := [command]; Cmd := args;
          Tty := true; User := user r; ExposedPorts := ∅ |};
     HostConfig :=
       {| PortBindings := ∅; PublishAllPorts := true; AutoRemove := false;
          VolumesFrom := []; Binds := [] |} |}.

Definition wire_volumes (r : dockerRunner)
    (opts : docker_CreateContainerOptions) (volumes : list Volume)
  : docker_CreateContainerOptions :=
  if negb (String.eqb (volumesFrom r) EmptyString) then
    let hc := HostConfig opts in
    {| Name := Name opts; Config := Config opts;
       HostConfig :=
         {| PortBindings := PortBindings hc;
            PublishAllPorts := PublishAllPorts hc;
            AutoRemove := AutoRemove hc;
            VolumesFrom := [volumesFrom r];
            Binds := Binds hc |} |}
  else fold_left append_bind volumes opts.

Definition create_options (r : dockerRunner) (command : string)
    (args : list string) (volumes : list Volume) (ports : list Z)
    (containerName : string) : docker_CreateContainerOptions :=
  let containerName :=
    strings_Replace_byte containerName ":"%char EmptyString in
  let opts := initial_options r command args containerName in
  let opts := wire_volumes r opts volumes in
  fold_left publish_port ports opts.

(** [delete(r.containerIDs, id)]; deleting from a nil map does nothing. *)
Definition unrecordContainerID (r : dockerRunner) (id : string)
  : dockerRunner :=
  match containerIDs r with
  | Some m => set_containerIDs r (Some (delete id m))
  | None => r
  end.

Section Runner.
Context {World : Type} `{!DockerClient World}.

(** [maskAny] is declared elsewhere in package service. *)
Variable maskAny : error → error.

Definition log (e : env World) (l : log_entry) : env World :=
  {| world := world e; logged := logged e ++ [l]; calls := calls e |}.

Definition called (e : env World) (w : World) (c : api_call) : env World :=
  {| world := w; logged := logged e; calls := calls e ++ [c] |}.

Definition now (e : env World) : env World * Z :=
  let '(w, t) := time_Now (world e) in
  ({| world := w; logged := logged e; calls := calls e |}, t).

Definition sleep (e : env World) (d : Z) : env World :=
  {| world := time_Sleep (world e) d; logged := logged e;
     calls := calls e |}.

Definition client_PullImage (e : env World)
    (opts : docker_PullImageOptions) : env World * option error :=
  let '(w, res) := PullImage (world e) opts in
  (called e w (CallPull opts res), res).

Definition client_CreateContainer (e : env World)
    (opts : docker_CreateContainerOptions)
  : env World * (docker_Container + error) :=
  let '(w, res) := CreateContainer (world e) opts in
  (called e w (CallCreate opts res), res).

Definition client_StartContainer (e : env World) (id : string)
    (hc : docker_HostConfig) : env World * option error :=
  let '(w, res) := StartContainer (world e) id hc in
  (called e w (CallStart id hc res), res).

Definition client_InspectContainer (e : env World) (id : string)
  : env World * (docker_Container + error) :=
  let '(w, res) := InspectContainer (world e) id in
  (called e w (CallInspect id res), res).

Definition client_RemoveContainer (e : env World)
    (opts : docker_RemoveContainerOptions) : env World * option error :=
  let '(w, res) := RemoveContainer (world e) opts in
  (called e w (CallRemove opts res), res).

Definition client_StopContainer (e : env World) (id : string)
    (timeout : Z) : env World * option error :=
  let '(w, res) := StopContainer (world e) id timeout in
  (called e w (CallStop id timeout res), res).

Definition client_KillContainer (e : env World) (id : string)
  : env World * option error :=
  let '(w, res) := KillContainer (world e) id in
  (called e w (CallKill id res), res).

Definition client_WaitContainer (e : env World) (id : string)
  : env World :=
  called e (WaitContainer (world e) id) (CallWait id).

(** [r.containerIDs[id] = time.Now()]: the clock is read, then the
    write panics on a nil map ([None]). *)
Definition recordContainerID (r : dockerRunner) (e : env World)
    (id : string) : option dockerRunner * env World :=
  let '(e, t) := now e in
  match containerIDs r with
  | Some m => (Some (set_containerIDs r (Some (<[ id := t ]> m))), e)
  | None => (None, e)
  end.

(** The pull request of [Start]: repository and tag of the image. *)
Definition pull_options (r : dockerRunner) : docker_PullImageOptions :=
  {| Repository := (ParseRepositoryTag (image r)).1;
     Tag := (ParseRepositoryTag (image r)).2 |}.

Definition Start (r : dockerRunner) (e : env World) (command : string)
    (args : list string) (volumes : list Volume) (ports : list Z)
    (containerName : string)
  : outcome dockerContainer * dockerRunner * env World :=
  let r := gcOnce_Do r in
  let '(repo, tag) := ParseRepositoryTag (image r) in
  let e := log e (Debugf "Pulling image %s:%s" [ArgS repo; ArgS tag]) in
  let '(e, perr) :=
    client_PullImage e {| Repository := repo; Tag := tag |} in
  match perr with
  | Some err => (Err (maskAny err), r, e)
  | None =>
      let opts := create_options r command args volumes ports containerName in
      let e := log e (Debugf "Creating container %s" [ArgS (Name opts)]) in
      let '(e, cres) := client_CreateContainer e opts in
      match cres with
      | inr err => (Err (maskAny err), r, e)
      | inl c =>
          match recordContainerID r e (ID c) with
          | (None, e) => (Panic, r, e)
          | (Some r, e) =>
              let e :=
                log e (Debugf "Starting container %s" [ArgS (Name opts)]) in
              let '(e, serr) :=
                client_StartContainer e (ID c) (HostConfig opts) in
              match serr with
              | Some err => (Err (maskAny err), r, e)
              | None =>
                  let e :=
                    log e (Debugf "Started container %s" [ArgS (Name opts)])
                  in
                  (Ok {| container := c |}, r, e)
              end
          end
      end
  end.

(** The body of the loop of [Cleanup]. *)
Definition Cleanup_remove (e : env World) (id : string) : env World :=
  let e := log e (Infof "Removing container %s" [ArgS id]) in
  let '(e, rerr) :=
    client_RemoveContainer e {| rmID := id; Force := true |} in
  match rerr with
  | Some err =>
      if negb (isNoSuchContainer err) then
        log e (Warningf "Failed to remove container %s: %#v"
                 [ArgS id; ArgE err])
      else e
  | None => e
  end.

Definition Cleanup (r : dockerRunner) (e : env World)
  : option error * dockerRunner * env World :=
  let e := fold_left Cleanup_remove (range_keys (containerIDs r)).*1 e in
  (None, set_containerIDs r None, e).

Definition canGC (r : dockerRunner) (e : env World) (c : docker_Container)
  : env World * bool :=
  let '(e, t) := now e in
  let gcBoundary := time_Add t (neg_Duration (gcDelay r)) in
  let s := StateString (State c) in
  if String.eqb s "dead" || String.eqb s "exited" then
    if time_Before (FinishedAt (State c)) gcBoundary then (e, true)
    else (e, false)
  else if String.eqb s "created" then
    if time_Before (Created c) gcBoundary then (e, true)
    else (e, false)
  else (e, false).

Definition gatherCollectableContainerIDs (r : dockerRunner) (e : env World)
  : env World * list string :=
  let '(e, t) := now e in
  let gcBoundary := time_Add t (neg_Duration (gcDelay r)) in
  (e,
   fold_left
     (λ result '(id, ts),
        if time_Before ts gcBoundary then result ++ [id] else result)
     (range_keys (containerIDs r)) []).

(** The body of the loop over [ids] in [gc]. *)
Definition gc_visit (s : dockerRunner * env World) (id : string)
  : dockerRunner * env World :=
  let '(r, e) := s in
  let '(e, res) := client_InspectContainer e id in
  match res with
  | inr err =>
      if isNoSuchContainer err then (unrecordContainerID r id, e)
      else
        (r, log e (Warningf "Failed to inspect container %s: %#v"
                     [ArgS id; ArgE err]))
  | inl c =>
      let '(e, ok) := canGC r e c in
      if ok then
        let e := log e (Infof "Removing old container %s" [ArgS id]) in
        let '(e, rerr) :=
          client_RemoveContainer e {| rmID := id; Force := false |} in
        match rerr with
        | Some err =>
            (r, log e (Warningf "Failed to remove container %s: %#v"
                         [ArgS id; ArgE err]))
        | None => (unrecordContainerID r id, e)
        end
      else (r, e)
  end.

(** One turn of the loop of [gc], up to the sleep. *)
Definition gc_pass (r : dockerRunner) (e : env World)
  : dockerRunner * env World :=
  let '(e, ids) := gatherCollectableContainerIDs r e in
  fold_left gc_visit ids (r, e).

Definition time_Minute : Z := 60 * 1000000000.

(** [gc] cut off after [n] turns of its endless loop. *)
Fixpoint gc (n : nat) (r : dockerRunner) (e : env World)
  : dockerRunner * env World :=
  match n with
  | O => (r, e)
  | S n' =>
      let '(r, e) := gc_pass r e in
      gc n' r (sleep e time_Minute)
  end.

(** ** The container handle *)

Definition ProcessID (p : dockerContainer) : Z := 0.

Definition ContainerID (p : dockerContainer) : string := ID (container p).

Definition Wait (p : dockerContainer) (e : env World) : env World :=
  client_WaitContainer e (ID (container p)).

Definition Terminate (p : dockerContainer) (e : env World)
  : option error * env World :=
  let '(e, err) :=
    client_StopContainer e (ID (container p)) stopContainerTimeout in
  match err with
  | Some err => (Some (maskAny err), e)
  | None => (None, e)
  end.

Definition Kill (p : dockerContainer) (e : env World)
  : option error * env World :=
  let '(e, err) := client_KillContainer e (ID (container p)) in
  match err with
  | Some err => (Some (maskAny err), e)
  | None => (None, e)
  end.

Definition dockerContainer_Cleanup (p : dockerContainer) (e : env World)
  : option error * env World :=
  let opts := {| rmID := ID (container p); Force := true |} in
  let '(e, err) := client_RemoveContainer e opts in
  match err with
  | Some err => (Some (maskAny err), e)
  | None => (None, e)
  end.

End Runner.

(** ** Sequences of operations *)

Inductive handle_method : Type :=
  | HWait
  | HTerminate
  | HKill
  | HCleanup.

(** What a caller, or the collector's timer, can do next. *)
Inductive op : Type :=
  | OpStart (command : string) (args : list string) (volumes : list Volume)
      (ports : list Z) (containerName : string)
  | OpCleanup
  | OpCollect
  | OpHandle (m : handle_method) (p : dockerContainer).

(** What the operation gave back. *)
Inductive op_result : Type :=
  | ResStart (res : outcome dockerContainer)
  | ResError (res : option error)
  | ResNone.

(** One finished operation: what it was, what it returned and the client
    calls it made. *)
Record event : Type := {
  ev_op : op;
  ev_result : op_result;
  ev_calls : list api_call
}.

Section Run.
Context {World : Type} `{!DockerClient World}.
Variable maskAny : error → error.

Definition handle_call (m : handle_method) (p : dockerContainer)
    (e : env World) : op_result * env World :=
  match m with
  | HWait => (ResNone, Wait p e)
  | HTerminate => let '(res, e) := Terminate maskAny p e in (ResError res, e)
  | HKill => let '(res, e) := Kill maskAny p e in (ResError res, e)
  | HCleanup =>
      let '(res, e) := dockerContainer_Cleanup maskAny p e in
      (ResError res, e)
  end.

(** A handle holds the client and the container, not the runner. *)
Definition run_op (o : op) (r : dockerRunner) (e : env World)
  : op_result * dockerRunner * env World :=
  match o with
  | OpStart command args volumes ports containerName =>
      let '(res, r, e) :=
        Start maskAny r e command args volumes ports containerName in
      (ResStart res, r, e)
  | OpCleanup => let '(res, r, e) := Cleanup r e in (ResError res, r, e)
  | OpCollect => let '(r, e) := gc_pass r e in (ResNone, r, e)
  | OpHandle m p => let '(res, e) := handle_call m p e in (res, r, e)
  end.

Definition panicked (res : op_result) : bool :=
  match res with
  | ResStart Panic => true
  | _ => false
  end.

(** Runs the operations in order; a panic ends the process, and the run
    has no result. *)
Fixpoint run (ops : list op) (r : dockerRunner) (e : env World)
  : option (list event * dockerRunner * env World) :=
  match ops with
  | [] => Some ([], r, e)
  | o :: ops' =>
      let '(res, r', e') := run_op o r e in
      if panicked res then None
      else
        match run ops' r' e' with
        | Some (evs, r'', e'') =>
            Some ({| ev_op := o; ev_result := res;
                     ev_calls := drop (length (calls e)) (calls e') |}
                    :: evs, r'', e'')
        | None => None
        end
  end.
End Run.

(** The identifiers of the containers that the calls of a trace created. *)
Fixpoint created_in (seg : list api_call) : gset string :=
  match seg with
  | [] => ∅
  | CallCreate _ (inl c) :: seg' => {[ ID c ]} ∪ created_in seg'
  | _ :: seg' => created_in seg'
  end.

(** The identifiers that a collector pass with these calls retires: those
    whose inspection answered that the container does not exist, and those
    whose removal succeeded. *)
Fixpoint collected_in (seg : list api_call) : gset string :=
  match seg with
  | [] => ∅
  | CallInspect id (inr err) :: seg' =>
      if isNoSuchContainer err then {[ id ]} ∪ collected_in seg'
      else collected_in seg'
  | CallRemove opts None :: seg' => {[ rmID opts ]} ∪ collected_in seg'
  | _ :: seg' => collected_in seg'
  end.

(** The registry as the design document describes it: the identifiers for
    which [Start] returned successfully and which neither [Cleanup] nor the
    collector has removed since. *)
Definition started_step (s : gset string) (ev : event) : gset string :=
  match ev_op ev, ev_result ev with
  | OpStart _ _ _ _ _, ResStart (Ok p) => {[ ID (container p) ]} ∪ s
  | OpCleanup, _ => ∅
  | OpCollect, _ => s ∖ collected_in (ev_calls ev)
  | _, _ => s
  end.

Definition started_ids (evs : list event) : gset string :=
  fold_left started_step evs ∅.

(** The same with creation in place of a successful [Start]: the
    identifiers that [CreateContainer] returned to a [Start] and which
    neither [Cleanup] nor the collector has removed since. *)
Definition created_step (s : gset string) (ev : event) : gset string :=
  match ev_op ev with
  | OpStart _ _ _ _ _ => created_in (ev_calls ev) ∪ s
  | OpCleanup => ∅
  | OpCollect => s ∖ collected_in (ev_calls ev)
  | OpHandle _ _ => s
  end.

Definition created_ids (evs : list event) : gset string :=
  fold_left created_step evs ∅.

(** [NewDockerRunner], once the client is connected. *)
Definition NewDockerRunner (image user volumesFrom : string) (gcDelay : Z)
  : dockerRunner :=
  {| image := image; user := user; volumesFrom := volumesFrom;
     containerIDs := Some ∅; gcStarted := false; gcDelay := gcDelay |}.

(** The timestamp recorded for an identifier, if it is registered. *)
Definition recorded (r : dockerRunner) (id : string) : option Z :=
  match containerIDs r with
  | Some m => m !! id
  | None => None
  end.

(** The identifiers that the calls of a trace inspected, in order. *)
Fixpoint inspected_ids (seg : list api_call) : list string :=
  match seg with
  | [] => []
  | CallInspect id _ :: seg' => id :: inspected_ids seg'
  | _ :: seg' => inspected_ids seg'
  end.

(** What [Cleanup] logs for one identifier, given the answer to its
    removal: the announcement, and a warning for a failure other than a
    missing container. *)
Definition removal_log (id : string) (res : option error) : list log_entry :=
  Infof "Removing container %s" [ArgS id]
  :: match res with
     | Some err =>
         if isNoSuchContainer err then []
         else [Warningf "Failed to remove container %s: %#v"
                 [ArgS id; ArgE err]]
     | None => []
     end.

Definition forced_removal (id : string) (res : option error) : api_call :=
  CallRemove {| rmID := id; Force := true |} res.

(** Two runners: one that bind-mounts volumes, one that takes them from
    the container "starter"; both wait 600ns before collecting. *)
Definition bind_runner : dockerRunner :=
  NewDockerRunner "arangodb" EmptyString EmptyString 600.

Definition volumes_from_runner : dockerRunner :=
  NewDockerRunner "arangodb" EmptyString "starter" 600.

(** ** A scripted daemon, for concrete runs *)

Inductive reply : Type :=
  | ReplyError (res : option error)
  | ReplyContainer (res : docker_Container + error).

(** The clock, and the answers the daemon will give, in order. *)
Record script : Type := {
  clock : Z;
  replies : list reply
}.

Definition next_error (w : script) : script * option error :=
  match replies w with
  | ReplyError res :: rest => ({| clock := clock w; replies := rest |}, res)
  | _ :: rest => ({| clock := clock w; replies := rest |}, None)
  | [] => (w, None)
  end.

Definition next_container (w : script)
  : script * (docker_Container + error) :=
  match replies w with
  | ReplyContainer res :: rest =>
      ({| clock := clock w; replies := rest |}, res)
  | _ :: rest =>
      ({| clock := clock w; replies := rest |}, inr (ClientError "script"))
  | [] => (w, inr (ClientError "script"))
  end.

#[export] Instance script_client : DockerClient script := {|
  time_Now w := (w, clock w);
  time_Sleep w d := {| clock := clock w + d; replies := replies w |};
  ParseRepositoryTag s := (s, "latest");
  PullImage w _ := next_error w;
  CreateContainer w _ := next_container w;
  StartContainer w _ _ := next_error w;
  InspectContainer w _ := next_container w;
  RemoveContainer w _ := next_error w;
  StopContainer w _ _ := next_error w;
  KillContainer w _ := next_error w;
  WaitContainer w _ := w
|}.

Definition script_env (t : Z) (rs : list reply) : env script :=
  {| world := {| clock := t; replies := rs |}; logged := []; calls := [] |}.

(** [errgo.MaskFunc(errgo.Any)]: wraps, and keeps the cause. *)
Definition mask_keeping_cause (err : error) : error :=
  ErrgoErr (errgo_Cause err) err.

Definition container_c1 : docker_Container :=
  {| ID := "c1"; Created := 100;
     State := {| StateString := "created"; FinishedAt := 0 |} |}.

(** ** The command line for further starters *)










Section Command.
(** [portOffsetIncrement] is a constant declared elsewhere in package
    service. *)
Variable portOffsetIncrement : Z.

End Command.

(** ** What kinds of call an operation makes *)

(** The calls of the collector: inspections, and removals without force. *)
Definition collector_call (c : api_call) : bool :=
  match c with
  | CallInspect _ _ => true
  | CallRemove opts _ => negb (Force opts)
  | _ => false
  end.

(** The settings given at construction. *)
Definition same_configuration (r r' : dockerRunner) : Prop :=
  image r' = image r ∧ user r' = user r ∧ volumesFrom r' = volumesFrom r
  ∧ gcDelay r' = gcDelay r.

Definition is_Cleanup (o : op) : bool :=
  match o with
  | OpCleanup => true
  | _ => false
  end.

(** Decides which element of an explicit trace a call is. *)
Ltac in_seg H :=
  repeat (apply elem_of_cons in H as [H | H]; [try discriminate H |]);
  try (by apply elem_of_nil in H).

(** * Properties *)

(** ** The container directory *)

Lemma GetContainerDir_volumesFrom (r : dockerRunner) (hostDir : string) :
  volumesFrom r ≠ EmptyString → GetContainerDir r hostDir = hostDir.
Proof.
  intros Hvf. unfold GetContainerDir.
  destruct (String.eqb_spec (volumesFrom r) EmptyString) as [Heq | _];
    [done | reflexivity].
Qed.

Lemma GetContainerDir_bind_mounts (r : dockerRunner) (hostDir : string) :
  volumesFrom r = EmptyString → GetContainerDir r hostDir = "/data".
Proof. intros Hvf. unfold GetContainerDir. by rewrite Hvf. Qed.

(** C1, as the code has it: with a volumes-from container configured
    [GetContainerDir] returns the host directory unchanged, and without
    one it returns the fixed path "/data", whatever the host directory. *)
Theorem GetContainerDir_spec (r : dockerRunner) (hostDir : string) :
  (volumesFrom r ≠ EmptyString → GetContainerDir r hostDir = hostDir)
  ∧ (volumesFrom r = EmptyString → GetContainerDir r hostDir = "/data").
Proof.
  split;
    [apply GetContainerDir_volumesFrom | apply GetContainerDir_bind_mounts].
Qed.

Lemma GetContainerDir_spec_witness :
  let r1 := volumes_from_runner in
  let r2 := bind_runner in
  (volumesFrom r1 ≠ EmptyString ∧ GetContainerDir r1 "/var/lib/db" = "/var/lib/db")
  ∧ (volumesFrom r2 = EmptyString ∧ GetContainerDir r2 "/var/lib/db" = "/data").
Proof.
  split.
  - assert (Hne : volumesFrom volumes_from_runner ≠ EmptyString)
      by (simpl; discriminate).
    split; [exact Hne |].
    exact (proj1 (GetContainerDir_spec _ "/var/lib/db") Hne).
  - split; [reflexivity |].
    exact (proj2 (GetContainerDir_spec
                    bind_runner "/var/lib/db")
                 eq_refl).
Defined.

(** C1 as stated fails both ways: with volumes-from configured the result
    is the host directory and not "/data"; without it the result is
    "/data" and not the host directory. *)
Lemma GetContainerDir_claim_fails :
  let r1 := volumes_from_runner in
  let r2 := bind_runner in
  (volumesFrom r1 ≠ EmptyString ∧ GetContainerDir r1 "/var/lib/db" ≠ "/data")
  ∧ (volumesFrom r2 = EmptyString
     ∧ GetContainerDir r2 "/var/lib/db" ≠ "/var/lib/db").
Proof. simpl. repeat split; discriminate. Qed.

(** ** Time arithmetic *)

Lemma neg_Duration_opp (d : Z) :
  int64_min < d ≤ int64_max → neg_Duration d = - d.
Proof.
  unfold int64_min, int64_max, neg_Duration, wrap64. intros Hd.
  rewrite Z.mod_small; lia.
Qed.

Lemma gcBoundary_minus (t d : Z) :
  int64_min < d ≤ int64_max → time_Add t (neg_Duration d) = t - d.
Proof. intros Hd. unfold time_Add. rewrite neg_Duration_opp by done. lia. Qed.

Lemma time_Before_lt (t u : Z) : time_Before t u = true ↔ t < u.
Proof. unfold time_Before. apply Z.ltb_lt. Qed.

(** ** The collector: eligibility and candidates *)

Section Collector.
Context {World : Type} `{!DockerClient World}.

Lemma canGC_env (r : dockerRunner) (e : env World) (c : docker_Container) :
  (canGC r e c).1 = (now e).1.
Proof.
  unfold canGC. destruct (now e) as [e1 t]. simpl.
  repeat case_match; reflexivity.
Qed.

(** C4: read at the instant [t] of the clock, and with [gcDelay] a
    duration that can be negated, a dead or exited container is eligible
    exactly when it finished before [t - gcDelay], a created one exactly
    when the daemon's creation time is before [t - gcDelay], and a
    container in any other state (running, restarting, paused) is not
    eligible. *)
Theorem canGC_classification (r : dockerRunner) (e : env World)
    (c : docker_Container) :
  int64_min < gcDelay r ≤ int64_max →
  let t := (now e).2 in
  let s := StateString (State c) in
  (s = "dead" ∨ s = "exited" →
     ((canGC r e c).2 = true ↔ FinishedAt (State c) < t - gcDelay r))
  ∧ (s = "created" →
     ((canGC r e c).2 = true ↔ Created c < t - gcDelay r))
  ∧ (s ≠ "dead" → s ≠ "exited" → s ≠ "created" → (canGC r e c).2 = false)
  ∧ (s = "running" ∨ s = "restarting" ∨ s = "paused" →
     (canGC r e c).2 = false).
Proof.
  intros Hd t s. subst t s. unfold canGC.
  destruct (now e) as [e1 t]. simpl.
  rewrite gcBoundary_minus by done.
  split; [| split; [| split]].
  - intros Hs.
    assert (String.eqb (StateString (State c)) "dead"
            || String.eqb (StateString (State c)) "exited" = true) as ->.
    { destruct Hs as [-> | ->]; reflexivity. }
    rewrite <- time_Before_lt.
    destruct (time_Before _ _); simpl; split; congruence.
  - intros ->. simpl. rewrite <- time_Before_lt.
    destruct (time_Before _ _); simpl; split; congruence.
  - intros Hdead Hexited Hcreated.
    destruct (String.eqb_spec (StateString (State c)) "dead"); [done |].
    destruct (String.eqb_spec (StateString (State c)) "exited"); [done |].
    destruct (String.eqb_spec (StateString (State c)) "created"); [done |].
    reflexivity.
  - intros [-> | [-> | ->]]; reflexivity.
Qed.

Lemma gather_fold (b : Z) (l : list (string * Z)) (acc : list string) :
  fold_left
    (λ result '(id, ts), if time_Before ts b then result ++ [id] else result)
    l acc
  = acc ++ (filter (λ x, x.2 < b) l).*1.
Proof.
  revert acc. induction l as [| [id ts] l IH]; intros acc; simpl.
  - by rewrite app_nil_r.
  - rewrite IH. rewrite filter_cons. simpl.
    unfold time_Before. destruct (Z.ltb_spec ts b) as [Hlt | Hge].
    + rewrite decide_True by done. simpl. by rewrite <- app_assoc.
    + rewrite decide_False by lia. done.
Qed.

Lemma gather_env (r : dockerRunner) (e : env World) :
  (gatherCollectableContainerIDs r e).1 = (now e).1.
Proof.
  unfold gatherCollectableContainerIDs. by destruct (now e).
Qed.

Lemma gather_filter (r : dockerRunner) (e : env World) :
  int64_min < gcDelay r ≤ int64_max →
  (gatherCollectableContainerIDs r e).2
  = (filter (λ x, x.2 < (now e).2 - gcDelay r)
       (range_keys (containerIDs r))).*1.
Proof.
  intros Hd. unfold gatherCollectableContainerIDs.
  destruct (now e) as [e1 t]. simpl.
  rewrite gcBoundary_minus by done. by rewrite gather_fold.
Qed.

Lemma range_keys_elem (r : dockerRunner) (id : string) (ts : Z) :
  (id, ts) ∈ range_keys (containerIDs r) ↔ recorded r id = Some ts.
Proof.
  unfold recorded, range_keys. destruct (containerIDs r) as [m |].
  - apply elem_of_map_to_list.
  - split; [by intros ?%elem_of_nil | done].
Qed.

Lemma range_keys_NoDup (m : option (gmap string Z)) :
  NoDup (range_keys m).*1.
Proof.
  destruct m as [m |]; simpl; [apply NoDup_fst_map_to_list | constructor].
Qed.

(** C6: with the clock read at [t], the candidates of a pass are exactly
    the identifiers whose recorded timestamp is before [t - gcDelay],
    each once; an identifier recorded at or after that instant is not
    among them. *)
Theorem gather_candidates (r : dockerRunner) (e : env World) :
  int64_min < gcDelay r ≤ int64_max →
  let t := (now e).2 in
  let ids := (gatherCollectableContainerIDs r e).2 in
  NoDup ids
  ∧ (∀ id, id ∈ ids ↔ ∃ ts, recorded r id = Some ts ∧ ts < t - gcDelay r)
  ∧ (∀ id ts, recorded r id = Some ts → t - gcDelay r ≤ ts → id ∉ ids).
Proof.
  intros Hd t ids. subst t ids. rewrite gather_filter by done.
  assert (Hmem : ∀ id,
    id ∈ (filter (λ x, x.2 < (now e).2 - gcDelay r)
            (range_keys (containerIDs r))).*1
    ↔ ∃ ts, recorded r id = Some ts ∧ ts < (now e).2 - gcDelay r).
  { intros id. rewrite list_elem_of_fmap. split.
    - intros [[id' ts] [-> [Hlt Hin]%list_elem_of_filter]]. simpl in *.
      exists ts. split; [by apply range_keys_elem | done].
    - intros [ts [Hrec Hlt]]. exists (id, ts). split; [done |].
      apply list_elem_of_filter. split; [done | by apply range_keys_elem]. }
  split; [| split].
  - pose proof (range_keys_NoDup (containerIDs r)) as Hnd.
    revert Hnd. generalize (range_keys (containerIDs r)).
    induction l as [| [id ts] l IH]; simpl; intros Hnd; [constructor |].
    apply NoDup_cons in Hnd as [Hnotin Hnd]. rewrite filter_cons.
    case_decide; simpl; [| by apply IH].
    apply NoDup_cons. split; [| by apply IH].
    intros Hin. apply Hnotin. apply list_elem_of_fmap in Hin
      as [[id' ts'] [-> [_ Hin]%list_elem_of_filter]].
    apply list_elem_of_fmap. by exists (id', ts').
  - exact Hmem.
  - intros id ts Hrec Hge Hin. apply Hmem in Hin as [ts' [Hrec' Hlt]].
    rewrite Hrec in Hrec'. injection Hrec' as <-. lia.
Qed.
End Collector.

Lemma canGC_classification_witness :
  let r := bind_runner in
  let e := script_env 1000 [] in
  let c := {| ID := "c1"; Created := 100;
              State := {| StateString := "exited"; FinishedAt := 399 |} |} in
  int64_min < gcDelay r ≤ int64_max ∧ (canGC r e c).2 = true.
Proof.
  intros r e c.
  assert (Hd : int64_min < gcDelay r ≤ int64_max)
    by (unfold int64_min, int64_max; simpl; lia).
  split; [exact Hd |].
  destruct (canGC_classification r e c Hd) as [Hfinished _].
  apply Hfinished; [by right | simpl; lia].
Defined.

Lemma gather_candidates_witness :
  let r := set_containerIDs bind_runner
             (Some (<[ "old" := 100 ]> (<[ "new" := 900 ]> ∅))) in
  let e := script_env 1000 [] in
  int64_min < gcDelay r ≤ int64_max
  ∧ "old" ∈ (gatherCollectableContainerIDs r e).2
  ∧ "new" ∉ (gatherCollectableContainerIDs r e).2.
Proof.
  intros r e.
  assert (Hd : int64_min < gcDelay r ≤ int64_max)
    by (unfold int64_min, int64_max; simpl; lia).
  split; [exact Hd |].
  destruct (gather_candidates r e Hd) as (_ & Hin & Hout).
  split.
  - apply Hin. exists 100. split; [reflexivity | simpl; lia].
  - apply (Hout "new" 900); [reflexivity | simpl; lia].
Defined.

(** ** The creation request *)

Lemma list_ascii_of_string_app (s t : string) :
  String.list_ascii_of_string (s +:+ t)
  = String.list_ascii_of_string s ++ String.list_ascii_of_string t.
Proof. induction s as [| c s IH]; simpl; [done | by rewrite IH]. Qed.

Lemma string_app_inv_tail (s1 s2 t : string) :
  s1 +:+ t = s2 +:+ t → s1 = s2.
Proof.
  intros Heq.
  apply (f_equal String.list_ascii_of_string) in Heq.
  rewrite !list_ascii_of_string_app in Heq.
  apply app_inv_tail in Heq.
  apply (f_equal String.string_of_list_ascii) in Heq.
  by rewrite !String.string_of_list_ascii_of_string in Heq.
Qed.

Lemma strings_Replace_byte_empty (s : string) (old : ascii) :
  String.list_ascii_of_string (strings_Replace_byte s old EmptyString)
  = filter (λ c, c ≠ old) (String.list_ascii_of_string s).
Proof.
  induction s as [| c s IH]; simpl; [done |].
  rewrite filter_cons. destruct (Ascii.eqb_spec c old) as [-> | Hne].
  - rewrite decide_False by (intros H; by apply H). exact IH.
  - rewrite decide_True by done. simpl. by rewrite IH.
Qed.

Lemma publish_ports_Name opts ports :
  Name (fold_left publish_port ports opts) = Name opts.
Proof.
  revert opts.
  induction ports as [| p ports IH]; intros opts; simpl; [done | by rewrite IH].
Qed.

Lemma publish_ports_volumes opts ports :
  VolumesFrom (HostConfig (fold_left publish_port ports opts))
  = VolumesFrom (HostConfig opts)
  ∧ Binds (HostConfig (fold_left publish_port ports opts))
    = Binds (HostConfig opts).
Proof.
  revert opts. induction ports as [| p ports IH]; intros opts; simpl; [done |].
  destruct (IH (publish_port opts p)) as [-> ->]. done.
Qed.

Lemma publish_ports_exposed opts ports (k : string) :
  k ∈ ExposedPorts (Config (fold_left publish_port ports opts))
  ↔ (∃ p, p ∈ ports ∧ k = strconv_Itoa p +:+ "/tcp")
    ∨ k ∈ ExposedPorts (Config opts).
Proof.
  revert opts. induction ports as [| p ports IH]; intros opts; simpl.
  - split; [by right |].
    intros [[p [Hp _]] | H]; [by apply elem_of_nil in Hp | done].
  - rewrite IH. simpl. rewrite elem_of_union, elem_of_singleton. split.
    + intros [[q [Hq ->]] | [-> | H]].
      * left. exists q. split; [by right | done].
      * left. exists p. split; [by left | done].
      * by right.
    + intros [[q [Hq ->]] | H].
      * apply elem_of_cons in Hq as [-> | Hq]; [right; by left |].
        left. by exists q.
      * right. by right.
Qed.

Lemma publish_ports_bindings_snoc opts ports (p : Z) :
  fold_left publish_port (ports ++ [p]) opts
  = publish_port (fold_left publish_port ports opts) p.
Proof. by rewrite fold_left_app. Qed.

Lemma publish_ports_bindings opts ports (p : Z) :
  p ∈ ports →
  PortBindings (HostConfig (fold_left publish_port ports opts))
    !! (strconv_Itoa p +:+ "/tcp")
  = Some [ {| HostIP := "0.0.0.0"; HostPort := strconv_Itoa p |} ].
Proof.
  induction ports as [| q ports IH] using rev_ind; intros Hp.
  - by apply elem_of_nil in Hp.
  - rewrite publish_ports_bindings_snoc. simpl.
    destruct (decide (strconv_Itoa q +:+ "/tcp" = strconv_Itoa p +:+ "/tcp"))
      as [Hk | Hk].
    + rewrite Hk, lookup_insert_eq.
      by apply string_app_inv_tail in Hk as ->.
    + rewrite lookup_insert_ne by done. apply IH.
      apply elem_of_app in Hp as [Hp | Hp]; [done |].
      apply list_elem_of_singleton in Hp as ->. done.
Qed.

Lemma publish_ports_bindings_dom opts ports (k : string) :
  is_Some (PortBindings (HostConfig (fold_left publish_port ports opts)) !! k)
  ↔ (∃ p, p ∈ ports ∧ k = strconv_Itoa p +:+ "/tcp")
    ∨ is_Some (PortBindings (HostConfig opts) !! k).
Proof.
  revert opts. induction ports as [| p ports IH]; intros opts; simpl.
  - split; [by right |].
    intros [[p [Hp _]] | H]; [by apply elem_of_nil in Hp | done].
  - rewrite IH. simpl. rewrite lookup_insert_is_Some. split.
    + intros [[q [Hq ->]] | [<- | [_ H]]].
      * left. exists q. split; [by right | done].
      * left. exists p. split; [by left | done].
      * by right.
    + intros [[q [Hq ->]] | H].
      * apply elem_of_cons in Hq as [-> | Hq]; [right; by left |].
        left. by exists q.
      * right.
        destruct (decide (strconv_Itoa p +:+ "/tcp" = k)); [by left | by right].
Qed.

Lemma append_binds opts volumes :
  let opts' := fold_left append_bind volumes opts in
  Name opts' = Name opts ∧ Config opts' = Config opts
  ∧ PortBindings (HostConfig opts') = PortBindings (HostConfig opts)
  ∧ VolumesFrom (HostConfig opts') = VolumesFrom (HostConfig opts)
  ∧ Binds (HostConfig opts') = Binds (HostConfig opts) ++ (volume_bind <$> volumes).
Proof.
  revert opts. induction volumes as [| v volumes IH]; intros opts; simpl.
  - by rewrite app_nil_r.
  - destruct (IH (append_bind opts v)) as (-> & -> & -> & -> & ->). simpl.
    by rewrite <- app_assoc.
Qed.

Lemma string_app_assoc (s t u : string) :
  (s +:+ t) +:+ u = s +:+ (t +:+ u).
Proof.
  induction s as [| c s IH]; [done |].
  change (String c ((s +:+ t) +:+ u) = String c (s +:+ (t +:+ u))).
  by rewrite IH.
Qed.

Lemma string_app_nil_r (s : string) : s +:+ EmptyString = s.
Proof.
  induction s as [| c s IH]; [done |].
  change (String c (s +:+ EmptyString) = String c s). by rewrite IH.
Qed.

Lemma volume_bind_format (v : Volume) :
  volume_bind v
  = HostPath v +:+ ":" +:+ ContainerPath v
      +:+ (if ReadOnly v then ":ro" else EmptyString).
Proof.
  unfold volume_bind. destruct (ReadOnly v).
  - by rewrite !string_app_assoc.
  - by rewrite string_app_nil_r.
Qed.

(** ** Start *)

Section StartProperties.
Context {World : Type} `{!DockerClient World}.
Variable maskAny : error → error.

(** The four ways through [Start], told apart by the answers of the
    daemon: the pull fails; the creation fails; the creation succeeds
    and the registry is nil; the creation succeeds, the identifier is
    recorded and the container is started. *)
Lemma Start_cases (r : dockerRunner) (e : env World) (command : string)
    (args : list string) (volumes : list Volume) (ports : list Z)
    (containerName : string) :
  let opts := create_options r command args volumes ports containerName in
  let po := pull_options r in
  ∃ res r' e',
    Start maskAny r e command args volumes ports containerName
    = (res, r', e')
    ∧ ((∃ err, res = Err (maskAny err) ∧ r' = gcOnce_Do r
          ∧ calls e' = calls e ++ [CallPull po (Some err)])
       ∨ (∃ err, res = Err (maskAny err) ∧ r' = gcOnce_Do r
          ∧ calls e' = calls e
              ++ [CallPull po None; CallCreate opts (inr err)])
       ∨ (∃ c, res = Panic ∧ r' = gcOnce_Do r ∧ containerIDs r = None
          ∧ calls e' = calls e
              ++ [CallPull po None; CallCreate opts (inl c)])
       ∨ (∃ c m t sres,
            containerIDs r = Some m
            ∧ r' = set_containerIDs (gcOnce_Do r) (Some (<[ ID c := t ]> m))
            ∧ calls e' = calls e
                ++ [CallPull po None; CallCreate opts (inl c);
                    CallStart (ID c) (HostConfig opts) sres]
            ∧ res = match sres with
                    | Some err => Err (maskAny err)
                    | None => Ok {| container := c |}
                    end)).
Proof.
  intros opts po. subst opts po. unfold Start, pull_options.
  change (image (gcOnce_Do r)) with (image r).
  destruct (ParseRepositoryTag (image r)) as [repo tag]. simpl.
  unfold client_PullImage. simpl.
  destruct (PullImage (world e) _) as [w1 [perr |]].
  { eexists _, _, _. split; [reflexivity |]. left. by exists perr. }
  unfold client_CreateContainer. simpl.
  destruct (CreateContainer w1 _) as [w2 [c | cerr]].
  2:{ eexists _, _, _. split; [reflexivity |]. right; left.
      exists cerr. simpl. by rewrite <- app_assoc. }
  unfold recordContainerID, now. simpl.
  destruct (time_Now w2) as [w3 t]. simpl.
  destruct (containerIDs r) as [m |] eqn:Hm.
  2:{ eexists _, _, _. split; [reflexivity |]. right; right; left.
      exists c. simpl. by rewrite <- app_assoc. }
  unfold client_StartContainer. simpl.
  destruct (StartContainer w3 _ _) as [w4 sres].
  destruct sres as [serr |].
  - eexists _, _, _. split; [reflexivity |]. right; right; right.
    exists c, m, t, (Some serr). simpl.
    by rewrite <- !app_assoc.
  - eexists _, _, _. split; [reflexivity |]. right; right; right.
    exists c, m, t, None. simpl.
    by rewrite <- !app_assoc.
Qed.

(** C3: a failing pull, creation or start makes [Start] return that
    error (through [maskAny]) and make no further call; after a failed
    pull or a failed creation the registry is as it was, and after a
    failed start the identifier just created is registered. *)
Theorem Start_failures (r : dockerRunner) (e : env World)
    (command : string) (args : list string) (volumes : list Volume)
    (ports : list Z) (containerName : string) :
  let '(res, r', e') :=
    Start maskAny r e command args volumes ports containerName in
  let seg := drop (length (calls e)) (calls e') in
  (∀ po err, CallPull po (Some err) ∈ seg →
     res = Err (maskAny err) ∧ containerIDs r' = containerIDs r
     ∧ (∀ o cres, CallCreate o cres ∉ seg)
     ∧ (∀ id hc sres, CallStart id hc sres ∉ seg))
  ∧ (∀ o err, CallCreate o (inr err) ∈ seg →
     res = Err (maskAny err) ∧ containerIDs r' = containerIDs r
     ∧ (∀ id hc sres, CallStart id hc sres ∉ seg))
  ∧ (∀ id hc err, CallStart id hc (Some err) ∈ seg →
     res = Err (maskAny err)
     ∧ (∃ o c, CallCreate o (inl c) ∈ seg ∧ ID c = id)
     ∧ id ∈ registered r'
     ∧ registered r' = {[ id ]} ∪ registered r).
Proof.
  destruct (Start_cases r e command args volumes ports containerName)
    as (res & r' & e' & -> & Hcases).
  destruct Hcases as [(err & -> & -> & Hc) | [(err & -> & -> & Hc)
    | [(c & -> & -> & Hnil & Hc) | (c & m & t & sres & Hm & -> & Hc & ->)]]];
    rewrite Hc, drop_app_length; simpl.
  - split; [| split].
    + intros po err' Hin. in_seg Hin. simplify_eq.
      repeat split; [intros o cres H | intros id hc sres H]; in_seg H.
    + intros o err' Hin. in_seg Hin.
    + intros id hc err' Hin. in_seg Hin.
  - split; [| split].
    + intros po err' Hin. in_seg Hin.
    + intros o err' Hin. in_seg Hin. simplify_eq.
      repeat split. intros id hc sres H. in_seg H.
    + intros id hc err' Hin. in_seg Hin.
  - split; [| split].
    + intros po err' Hin. in_seg Hin.
    + intros o err' Hin. in_seg Hin.
    + intros id hc err' Hin. in_seg Hin.
  - split; [| split].
    + intros po err' Hin. in_seg Hin.
    + intros o err' Hin. in_seg Hin.
    + intros id hc err' Hin. in_seg Hin. simplify_eq.
      assert (Hreg : registered
                (set_containerIDs (gcOnce_Do r) (Some (<[ ID c := t ]> m)))
              = {[ ID c ]} ∪ registered r).
      { unfold registered. simpl. rewrite Hm. apply dom_insert_L. }
      split; [done |]. split.
      * eexists _, c. split; [| done]. apply elem_of_cons. right.
        apply elem_of_cons. by left.
      * split; [| exact Hreg]. rewrite Hreg.
        apply elem_of_union_l. by apply elem_of_singleton.
Qed.

(** C10: [Cleanup] leaves the registry map nil, and a [Start] on that
    runner whose container creation succeeds panics, before it starts
    the container. *)
Theorem Start_after_Cleanup_panics (r : dockerRunner) (e e2 : env World)
    (command : string) (args : list string) (volumes : list Volume)
    (ports : list Z) (containerName : string) :
  let r1 := (Cleanup r e).1.2 in
  let '(res, r', e') :=
    Start maskAny r1 e2 command args volumes ports containerName in
  let seg := drop (length (calls e2)) (calls e') in
  containerIDs r1 = None
  ∧ (∀ o c, CallCreate o (inl c) ∈ seg →
       res = Panic ∧ ∀ id hc sres, CallStart id hc sres ∉ seg).
Proof.
  intros r1.
  assert (Hnil : containerIDs r1 = None) by reflexivity.
  destruct (Start_cases r1 e2 command args volumes ports containerName)
    as (res & r' & e' & -> & Hcases).
  destruct Hcases as [(err & -> & -> & Hc) | [(err & -> & -> & Hc)
    | [(c & -> & -> & _ & Hc) | (c & m & t & sres & Hm & -> & Hc & ->)]]];
    try (rewrite Hnil in Hm; discriminate Hm);
    rewrite Hc, drop_app_length; simpl; (split; [done |]);
    intros o c' Hin; in_seg Hin.
  split; [done |]. intros id hc sres H. in_seg H.
Qed.

(** Once the daemon has accepted the pull, [Start] sends the creation
    request, and the trace holds it with the daemon's answer. *)
Lemma Start_sends_request (r : dockerRunner) (e : env World)
    (command : string) (args : list string) (volumes : list Volume)
    (ports : list Z) (containerName : string) :
  let opts := create_options r command args volumes ports containerName in
  let pulled := PullImage (world e) (pull_options r) in
  pulled.2 = None →
  CallCreate opts (CreateContainer pulled.1 opts).2
  ∈ drop (length (calls e))
      (calls (Start maskAny r e command args volumes ports containerName).2).
Proof.
  intros opts pulled. subst opts pulled. unfold Start, pull_options.
  change (image (gcOnce_Do r)) with (image r).
  destruct (ParseRepositoryTag (image r)) as [repo tag]. simpl.
  unfold client_PullImage. simpl.
  destruct (PullImage (world e) _) as [w1 perr]. simpl. intros ->.
  unfold client_CreateContainer. simpl.
  destruct (CreateContainer w1 _) as [w2 [c | cerr]]; simpl.
  - unfold recordContainerID, now. simpl.
    destruct (time_Now w2) as [w3 t]. simpl.
    destruct (containerIDs r) as [m |]; simpl.
    + unfold client_StartContainer. simpl.
      destruct (StartContainer w3 _ _) as [w4 [serr |]]; simpl;
        rewrite <- !app_assoc, drop_app_length;
        apply elem_of_cons; right; apply elem_of_cons; by left.
    + rewrite <- !app_assoc, drop_app_length.
      apply elem_of_cons. right. apply elem_of_cons. by left.
  - rewrite <- !app_assoc, drop_app_length.
    apply elem_of_cons. right. apply elem_of_cons. by left.
Qed.

(** C8: once the daemon has accepted the pull, [Start] sends a creation
    request to [CreateContainer], and every request it sends is
    [create_options]; its name is the supplied name without its colons;
    every requested port [p] is exposed as "p/tcp" and bound to host
    address 0.0.0.0 and host port [p], and nothing else is exposed or
    bound; with volumes-from configured only that reference is attached
    and there are no binds, and otherwise each volume yields the bind
    hostPath:containerPath, followed by :ro exactly when read-only. *)
Theorem Start_creation_request (r : dockerRunner) (e : env World)
    (command : string) (args : list string) (volumes : list Volume)
    (ports : list Z) (containerName : string) :
  let opts := create_options r command args volumes ports containerName in
  let e' :=
    (Start maskAny r e command args volumes ports containerName).2 in
  let port_key p := strconv_Itoa p +:+ "/tcp" in
  (∀ o cres,
     CallCreate o cres ∈ drop (length (calls e)) (calls e') → o = opts)
  ∧ ((PullImage (world e) (pull_options r)).2 = None →
       CallCreate opts
         (CreateContainer (PullImage (world e) (pull_options r)).1 opts).2
       ∈ drop (length (calls e)) (calls e'))
  ∧ String.list_ascii_of_string (Name opts)
    = filter (λ c, c ≠ ":"%char) (String.list_ascii_of_string containerName)
  ∧ (∀ p, p ∈ ports →
       port_key p ∈ ExposedPorts (Config opts)
       ∧ PortBindings (HostConfig opts) !! port_key p
         = Some [ {| HostIP := "0.0.0.0"; HostPort := strconv_Itoa p |} ])
  ∧ (∀ k, k ∈ ExposedPorts (Config opts) ↔ ∃ p, p ∈ ports ∧ k = port_key p)
  ∧ (∀ k, is_Some (PortBindings (HostConfig opts) !! k)
          ↔ ∃ p, p ∈ ports ∧ k = port_key p)
  ∧ (volumesFrom r ≠ EmptyString →
       VolumesFrom (HostConfig opts) = [volumesFrom r]
       ∧ Binds (HostConfig opts) = [])
  ∧ (volumesFrom r = EmptyString →
       VolumesFrom (HostConfig opts) = []
       ∧ Binds (HostConfig opts)
         = (λ v, HostPath v +:+ ":" +:+ ContainerPath v
                   +:+ (if ReadOnly v then ":ro" else EmptyString)) <$> volumes).
Proof.
  intros opts e' port_key. subst e'.
  split; [| split; [| split; [| split; [| split; [| split; [| split]]]]]].
  - destruct (Start_cases r e command args volumes ports containerName)
      as (res & r' & e' & -> & Hcases). simpl. fold opts in Hcases.
    destruct Hcases as [(err & -> & -> & Hc) | [(err & -> & -> & Hc)
      | [(c & -> & -> & _ & Hc) | (c & m & t & sres & Hm & -> & Hc & ->)]]];
      rewrite Hc, drop_app_length; intros o cres Hin; in_seg Hin;
      by simplify_eq.
  - apply Start_sends_request.
  - unfold opts, create_options. rewrite publish_ports_Name.
    unfold wire_volumes. case_match.
    + simpl. apply strings_Replace_byte_empty.
    + destruct (append_binds
        (initial_options r command args
           (strings_Replace_byte containerName ":" EmptyString)) volumes)
        as (-> & _). simpl. apply strings_Replace_byte_empty.
  - intros p Hp. split.
    + apply publish_ports_exposed. left. by exists p.
    + by apply publish_ports_bindings.
  - intros k. unfold opts, create_options.
    rewrite publish_ports_exposed. split; [| by left].
    intros [H | H]; [done |]. exfalso. revert H.
    unfold wire_volumes. case_match.
    + simpl. apply not_elem_of_empty.
    + destruct (append_binds
        (initial_options r command args
           (strings_Replace_byte containerName ":" EmptyString)) volumes)
        as (_ & -> & _). simpl. apply not_elem_of_empty.
  - intros k. unfold opts, create_options.
    rewrite publish_ports_bindings_dom. split; [| by left].
    intros [H | H]; [done |]. exfalso. revert H.
    unfold wire_volumes. case_match.
    + simpl. rewrite lookup_empty. by intros [? ?].
    + destruct (append_binds
        (initial_options r command args
           (strings_Replace_byte containerName ":" EmptyString)) volumes)
        as (_ & _ & -> & _). simpl. rewrite lookup_empty. by intros [? ?].
  - intros Hvf. unfold opts, create_options.
    destruct (publish_ports_volumes
      (wire_volumes r
         (initial_options r command args
            (strings_Replace_byte containerName ":" EmptyString)) volumes) ports)
      as [-> ->].
    unfold wire_volumes.
    destruct (String.eqb_spec (volumesFrom r) EmptyString) as [Heq | _]; [done |].
    done.
  - intros Hvf. unfold opts, create_options.
    destruct (publish_ports_volumes
      (wire_volumes r
         (initial_options r command args
            (strings_Replace_byte containerName ":" EmptyString)) volumes) ports)
      as [-> ->].
    unfold wire_volumes. rewrite Hvf. simpl.
    destruct (append_binds
      (initial_options r command args
         (strings_Replace_byte containerName ":" EmptyString)) volumes)
      as (_ & _ & _ & -> & ->). simpl. split; [done |].
    apply list_fmap_ext. intros _ v _. apply volume_bind_format.
Qed.
End StartProperties.

Lemma Start_failures_witness :
  let r := bind_runner in
  let e := script_env 0
             [ReplyError None; ReplyContainer (inl container_c1);
              ReplyError (Some (ClientError "cannot start"))] in
  let '(res, r', e') :=
    Start mask_keeping_cause r e "arangod" [] [] [8529] "node:1" in
  res = Err (mask_keeping_cause (ClientError "cannot start"))
  ∧ "c1" ∈ registered r'.
Proof.
  intros r e.
  pose proof (Start_failures mask_keeping_cause r e "arangod" [] [] [8529]
                "node:1") as H.
  destruct (Start mask_keeping_cause r e "arangod" [] [] [8529] "node:1")
    as [[res r'] e'] eqn:Heq.
  vm_compute in Heq. injection Heq as <- <- <-.
  destruct H as (_ & _ & Hstart).
  edestruct Hstart as (Hres & _ & Hin & _); [| split; [exact Hres | exact Hin]].
  cbn. do 2 (apply elem_of_cons; right). apply elem_of_cons. left.
  reflexivity.
Defined.

Lemma Start_after_Cleanup_panics_witness :
  let r := bind_runner in
  let e := script_env 0 [] in
  let e2 := script_env 10
              [ReplyError None; ReplyContainer (inl container_c1)] in
  let r1 := (Cleanup r e).1.2 in
  (Start mask_keeping_cause r1 e2 "arangod" [] [] [8529] "node1").1.1 = Panic.
Proof.
  intros r e e2 r1.
  pose proof (Start_after_Cleanup_panics mask_keeping_cause r e e2 "arangod"
                [] [] [8529] "node1") as H.
  fold r1 in H.
  destruct (Start mask_keeping_cause r1 e2 "arangod" [] [] [8529] "node1")
    as [[res r'] e'] eqn:Heq.
  vm_compute in Heq. injection Heq as <- <- <-.
  destruct H as (_ & Hpanic).
  edestruct Hpanic as (Hres & _); [| exact Hres].
  cbn. apply elem_of_cons. right. apply elem_of_cons. left. reflexivity.
Defined.

Lemma Start_creation_request_witness :
  let r := bind_runner in
  let e := script_env 0
             [ReplyError None; ReplyContainer (inl container_c1);
              ReplyError None] in
  let args := ["--server.endpoint=tcp://0.0.0.0:8529"] in
  let volumes := [ {| HostPath := "/host/data"; ContainerPath := "/data";
                      ReadOnly := false |} ] in
  let opts := create_options r "arangod" args volumes [8529] "node:1" in
  (PullImage (world e) (pull_options r)).2 = None
  ∧ CallCreate opts (inl container_c1)
    ∈ drop (length (calls e))
        (calls (Start mask_keeping_cause r e "arangod" args volumes [8529]
                  "node:1").2)
  ∧ "8529/tcp" ∈ ExposedPorts (Config opts)
  ∧ PortBindings (HostConfig opts) !! "8529/tcp"
    = Some [ {| HostIP := "0.0.0.0"; HostPort := "8529" |} ]
  ∧ Binds (HostConfig opts) = ["/host/data:/data"].
Proof.
  intros r e args volumes opts.
  assert (Hpull : (PullImage (world e) (pull_options r)).2 = None)
    by reflexivity.
  destruct (Start_creation_request mask_keeping_cause r e "arangod" args
              volumes [8529] "node:1")
    as (_ & Hsent & _ & Hports & _ & _ & _ & Hbinds).
  destruct (Hports 8529) as [Hexposed Hbound]; [by left |].
  destruct Hbinds as [_ Hb]; [reflexivity |].
  split; [exact Hpull |]. split; [exact (Hsent Hpull) |].
  split; [exact Hexposed |]. split; [exact Hbound | exact Hb].
Defined.

(** The scenario of the design document: the colon leaves the name. *)
Example create_options_name :
  Name (create_options bind_runner "arangod"
          ["--server.endpoint=tcp://0.0.0.0:8529"]
          [ {| HostPath := "/host/data"; ContainerPath := "/data";
               ReadOnly := false |} ] [8529] "node:1") = "node1".
Proof. reflexivity. Qed.

(** ** Cleanup *)

Section CleanupProperties.
Context {World : Type} `{!DockerClient World}.

Lemma Cleanup_remove_effect (e : env World) (id : string) :
  ∃ answer,
    calls (Cleanup_remove e id) = calls e ++ [forced_removal id answer]
    ∧ logged (Cleanup_remove e id) = logged e ++ removal_log id answer.
Proof.
  unfold Cleanup_remove, client_RemoveContainer. simpl.
  destruct (RemoveContainer (world e) _) as [w answer].
  exists answer. unfold removal_log.
  destruct answer as [err |]; simpl; [| done].
  destruct (isNoSuchContainer err); simpl; [done |].
  by rewrite <- app_assoc.
Qed.

Lemma Cleanup_loop (ids : list string) (e : env World) :
  ∃ answers,
    length answers = length ids
    ∧ calls (fold_left Cleanup_remove ids e)
      = calls e ++ zip_with forced_removal ids answers
    ∧ logged (fold_left Cleanup_remove ids e)
      = logged e ++ concat (zip_with removal_log ids answers).
Proof.
  revert e. induction ids as [| id ids IH]; intros e; simpl.
  - exists []. by rewrite !app_nil_r.
  - destruct (Cleanup_remove_effect e id) as (answer & Hc & Hl).
    destruct (IH (Cleanup_remove e id)) as (answers & Hlen & Hcs & Hls).
    exists (answer :: answers). simpl. rewrite Hlen, Hcs, Hls, Hc, Hl.
    by rewrite <- !app_assoc.
Qed.

Lemma range_keys_registered (r : dockerRunner) (id : string) :
  id ∈ (range_keys (containerIDs r)).*1 ↔ id ∈ registered r.
Proof.
  unfold registered, range_keys. destruct (containerIDs r) as [m |].
  - rewrite elem_of_dom, list_elem_of_fmap. split.
    + intros [[id' ts] [-> Hin]]. exists ts. by apply elem_of_map_to_list.
    + intros [ts Hts]. exists (id, ts). split; [done |].
      by apply elem_of_map_to_list.
  - simpl. split; [by intros ?%elem_of_nil | by intros ?%not_elem_of_empty].
Qed.

(** C7: [Cleanup] asks for the forced removal of every registered
    identifier, once each; whatever the answers, it returns no error and
    leaves the registry empty (a nil map); it logs a warning for an
    answer that is an error other than a missing container, and none for
    a success or a missing container. *)
Theorem Cleanup_removes_all (r : dockerRunner) (e : env World) :
  let '(res, r', e') := Cleanup r e in
  let ids := (range_keys (containerIDs r)).*1 in
  res = None
  ∧ containerIDs r' = None
  ∧ registered r' = ∅
  ∧ NoDup ids
  ∧ (∀ id, id ∈ ids ↔ id ∈ registered r)
  ∧ ∃ answers,
      length answers = length ids
      ∧ drop (length (calls e)) (calls e')
        = zip_with forced_removal ids answers
      ∧ drop (length (logged e)) (logged e')
        = concat (zip_with removal_log ids answers).
Proof.
  unfold Cleanup. simpl.
  repeat (split; [first [done | apply range_keys_NoDup
                        | apply range_keys_registered] |]).
  destruct (Cleanup_loop (range_keys (containerIDs r)).*1 e)
    as (answers & Hlen & Hc & Hl).
  exists answers. rewrite Hc, Hl, !drop_app_length. done.
Qed.
End CleanupProperties.

(** A removal that fails and one that finds no container: both are let
    pass, and only the first is logged as a warning. *)
Example Cleanup_with_failures :
  let r := set_containerIDs bind_runner
             (Some (<[ "a" := 1 ]> (<[ "b" := 2 ]> ∅))) in
  let e := script_env 0 [ReplyError (Some (ClientError "busy"));
                         ReplyError (Some (NoSuchContainer "b"))] in
  (Cleanup r e).1.1 = None
  ∧ containerIDs (Cleanup r e).1.2 = None
  ∧ logged (Cleanup r e).2
    = [Infof "Removing container %s" [ArgS "a"];
       Warningf "Failed to remove container %s: %#v"
         [ArgS "a"; ArgE (ClientError "busy")];
       Infof "Removing container %s" [ArgS "b"]].
Proof. vm_compute. done. Qed.

(** ** A collector pass *)

Lemma inspected_ids_app (s1 s2 : list api_call) :
  inspected_ids (s1 ++ s2) = inspected_ids s1 ++ inspected_ids s2.
Proof.
  induction s1 as [| c s1 IH]; simpl; [done |].
  destruct c; simpl; by rewrite ?IH.
Qed.

Lemma collected_in_app (s1 s2 : list api_call) :
  collected_in (s1 ++ s2) = collected_in s1 ∪ collected_in s2.
Proof.
  induction s1 as [| c s1 IH]; simpl; [set_solver |].
  destruct c as [| | | id [c | err] | opts [err |] | | |]; simpl;
    try exact IH.
  - destruct (isNoSuchContainer err); [| exact IH]. rewrite IH. set_solver.
  - rewrite IH. set_solver.
Qed.

Lemma created_in_app (s1 s2 : list api_call) :
  created_in (s1 ++ s2) = created_in s1 ∪ created_in s2.
Proof.
  induction s1 as [| c s1 IH]; simpl; [set_solver |].
  destruct c as [| opts [c | err] | | | | | |]; simpl; try exact IH.
  rewrite IH. set_solver.
Qed.

Lemma registered_unrecord (r : dockerRunner) (id : string) :
  registered (unrecordContainerID r id) = registered r ∖ {[ id ]}.
Proof.
  unfold registered, unrecordContainerID.
  destruct (containerIDs r) as [m |] eqn:Hm; simpl.
  - apply dom_delete_L.
  - rewrite Hm. set_solver.
Qed.

Section CollectorPass.
Context {World : Type} `{!DockerClient World}.

(** One candidate: the calls made, and what becomes of the registry. *)
Lemma gc_visit_effect (r : dockerRunner) (e : env World) (id : string) :
  ∃ seg,
    calls (gc_visit (r, e) id).2 = calls e ++ seg
    ∧ inspected_ids seg = [id]
    ∧ registered (gc_visit (r, e) id).1 = registered r ∖ collected_in seg.
Proof.
  unfold gc_visit, client_InspectContainer. simpl.
  destruct (InspectContainer (world e) id) as [w1 [c | err]].
  - destruct (canGC r _ c) as [e2 ok] eqn:Hgc.
    assert (He2 : calls e2 = calls e ++ [CallInspect id (inl c)]).
    { pose proof (canGC_env r (called e w1 (CallInspect id (inl c))) c)
        as Henv. rewrite Hgc in Henv. simpl in Henv. rewrite Henv.
      unfold now. simpl. by destruct (time_Now w1). }
    destruct ok.
    + unfold client_RemoveContainer. simpl.
      destruct (RemoveContainer (world e2) _) as [w3 [rerr |]]; simpl.
      * exists [CallInspect id (inl c);
                CallRemove {| rmID := id; Force := false |} (Some rerr)].
        rewrite He2, <- app_assoc. simpl.
        split; [done |]. split; [done | set_solver].
      * exists [CallInspect id (inl c);
                CallRemove {| rmID := id; Force := false |} None].
        rewrite He2, <- app_assoc. simpl.
        split; [done |]. split; [done |].
        rewrite registered_unrecord. set_solver.
    + exists [CallInspect id (inl c)]. simpl.
      split; [done |]. split; [done | set_solver].
  - exists [CallInspect id (inr err)]. simpl.
    destruct (isNoSuchContainer err); simpl.
    + split; [done |]. split; [done |].
      rewrite registered_unrecord. set_solver.
    + split; [done |]. split; [done | set_solver].
Qed.

Lemma gc_loop_effect (ids : list string) (r : dockerRunner)
    (e : env World) :
  ∃ seg,
    calls (fold_left gc_visit ids (r, e)).2 = calls e ++ seg
    ∧ inspected_ids seg = ids
    ∧ registered (fold_left gc_visit ids (r, e)).1
      = registered r ∖ collected_in seg.
Proof.
  revert r e. induction ids as [| id ids IH]; intros r e.
  - exists []. simpl. rewrite app_nil_r. split; [done |].
    split; [done | set_solver].
  - change (fold_left gc_visit (id :: ids) (r, e))
      with (fold_left gc_visit ids (gc_visit (r, e) id)).
    destruct (gc_visit_effect r e id) as (seg1 & Hc1 & Hi1 & Hr1).
    destruct (gc_visit (r, e) id) as [r1 e1]. simpl in Hc1, Hr1.
    destruct (IH r1 e1) as (seg2 & Hc2 & Hi2 & Hr2).
    exists (seg1 ++ seg2).
    rewrite Hc2, Hc1, <- app_assoc, inspected_ids_app, Hi1, Hi2.
    split; [done |]. split; [done |].
    rewrite Hr2, Hr1, collected_in_app. set_solver.
Qed.

Lemma gc_pass_effect (r : dockerRunner) (e : env World) :
  ∃ seg,
    calls (gc_pass r e).2 = calls e ++ seg
    ∧ inspected_ids seg = (gatherCollectableContainerIDs r e).2
    ∧ registered (gc_pass r e).1 = registered r ∖ collected_in seg.
Proof.
  unfold gc_pass.
  pose proof (gather_env r e) as Henv.
  destruct (gatherCollectableContainerIDs r e) as [e1 ids].
  simpl in *.
  destruct (gc_loop_effect ids r e1) as (seg & Hc & Hi & Hr).
  exists seg. split; [| done]. rewrite Hc, Henv.
  unfold now. by destruct (time_Now (world e)).
Qed.

(** C5: when the inspection of a candidate answers with an error, the
    collector makes no further call for it; if the error says that the
    container does not exist, the identifier is unregistered and nothing
    is logged; otherwise the runner is unchanged, so the entry stays,
    and a warning is logged.  In either case the pass goes on: it
    inspects every candidate, in order. *)
Theorem gc_inspection_errors (r : dockerRunner) (e : env World)
    (id : string) (err : error) :
  (InspectContainer (world e) id).2 = inr err →
  let '(r', e') := gc_visit (r, e) id in
  drop (length (calls e)) (calls e') = [CallInspect id (inr err)]
  ∧ (isNoSuchContainer err = true →
       r' = unrecordContainerID r id
       ∧ (id ∉ registered r')
       ∧ registered r' = registered r ∖ {[ id ]}
       ∧ logged e' = logged e)
  ∧ (isNoSuchContainer err = false →
       r' = r
       ∧ logged e'
         = logged e
             ++ [Warningf "Failed to inspect container %s: %#v"
                   [ArgS id; ArgE err]])
  ∧ (∀ ids,
       inspected_ids
         (drop (length (calls e'))
            (calls (fold_left gc_visit ids (r', e')).2)) = ids)
  ∧ inspected_ids
      (drop (length (calls e)) (calls (gc_pass r e).2))
    = (gatherCollectableContainerIDs r e).2.
Proof.
  intros Hinspect.
  destruct (gc_visit (r, e) id) as [r' e'] eqn:Hvisit.
  assert (Hrest : ∀ ids,
    inspected_ids
      (drop (length (calls e'))
         (calls (fold_left gc_visit ids (r', e')).2)) = ids).
  { intros ids. destruct (gc_loop_effect ids r' e') as (seg & -> & Hi & _).
    by rewrite drop_app_length. }
  assert (Hpass :
    inspected_ids (drop (length (calls e)) (calls (gc_pass r e).2))
    = (gatherCollectableContainerIDs r e).2).
  { destruct (gc_pass_effect r e) as (seg & -> & Hi & _).
    by rewrite drop_app_length. }
  revert Hvisit. unfold gc_visit, client_InspectContainer.
  destruct (InspectContainer (world e) id) as [w1 res]. simpl in Hinspect.
  subst res. destruct (isNoSuchContainer err) eqn:Hnsc;
    intros [= <- <-]; simpl; rewrite drop_app_length.
  - split; [done |]. split; [| split; [done | done]].
    intros _. split; [done |]. rewrite registered_unrecord.
    split; [set_solver | done].
  - split; [done |]. split; [done |]. split; [| done]. intros _. done.
Qed.
End CollectorPass.

Lemma gc_inspection_errors_witness :
  let r := set_containerIDs bind_runner
             (Some (<[ "gone" := 1 ]> ∅)) in
  let e := script_env 1000
             [ReplyContainer (inr (NoSuchContainer "gone"))] in
  (InspectContainer (world e) "gone").2 = inr (NoSuchContainer "gone")
  ∧ "gone" ∉ registered (gc_visit (r, e) "gone").1.
Proof.
  intros r e.
  assert (Hanswer : (InspectContainer (world e) "gone").2
                    = inr (NoSuchContainer "gone")) by reflexivity.
  split; [exact Hanswer |].
  pose proof (gc_inspection_errors r e "gone" (NoSuchContainer "gone")
                Hanswer) as H.
  destruct (gc_visit (r, e) "gone") as [r' e'].
  destruct H as (_ & Hgone & _).
  destruct Hgone as (_ & Hnot & _); [reflexivity | exact Hnot].
Defined.

(** ** The registry along a run *)

Section RunProperties.
Context {World : Type} `{!DockerClient World}.
Variable maskAny : error → error.

Lemma handle_call_calls (m : handle_method) (p : dockerContainer)
    (e : env World) :
  ∃ c, calls (handle_call maskAny m p e).2 = calls e ++ [c].
Proof.
  destruct m; simpl.
  - by eexists.
  - unfold Terminate, client_StopContainer.
    destruct (StopContainer _ _ _) as [w [err |]]; by eexists.
  - unfold Kill, client_KillContainer.
    destruct (KillContainer _ _) as [w [err |]]; by eexists.
  - unfold dockerContainer_Cleanup, client_RemoveContainer.
    destruct (RemoveContainer _ _) as [w [err |]]; by eexists.
Qed.

(** What one operation that does not panic does to the registry. *)
Lemma run_op_registered (o : op) (r : dockerRunner) (e : env World) :
  let '(res, r', e') := run_op maskAny o r e in
  panicked res = false →
  registered r'
  = created_step (registered r)
      {| ev_op := o; ev_result := res;
         ev_calls := drop (length (calls e)) (calls e') |}.
Proof.
  destruct o as [command args volumes ports containerName | | | m p]; simpl.
  - destruct (Start_cases maskAny r e command args volumes ports
                containerName) as (res & r' & e' & -> & Hcases).
    unfold created_step. simpl.
    destruct Hcases as [(err & -> & -> & Hc) | [(err & -> & -> & Hc)
      | [(c & -> & -> & _ & Hc) | (c & m & t & sres & Hm & -> & Hc & ->)]]];
      rewrite Hc, drop_app_length; simpl; intros Hp; try done.
    + change (registered (gcOnce_Do r)) with (registered r). set_solver.
    + change (registered (gcOnce_Do r)) with (registered r). set_solver.
    + unfold registered. simpl. rewrite Hm, dom_insert_L. set_solver.
  - intros _. unfold created_step. simpl. done.
  - destruct (gc_pass_effect r e) as (seg & Hc & _ & Hr).
    destruct (gc_pass r e) as [r' e']. simpl in *. intros _.
    unfold created_step. simpl. by rewrite Hc, drop_app_length.
  - destruct (handle_call maskAny m p e) as [res e']. intros _.
    unfold created_step. simpl. done.
Qed.

Lemma run_registered (ops : list op) (r : dockerRunner) (e : env World)
    (evs : list event) (r' : dockerRunner) (e' : env World) :
  run maskAny ops r e = Some (evs, r', e') →
  registered r' = fold_left created_step evs (registered r).
Proof.
  revert r e evs. induction ops as [| o ops IH]; intros r e evs; simpl.
  - by intros [= <- <- <-].
  - pose proof (run_op_registered o r e) as Hop.
    destruct (run_op maskAny o r e) as [[res r1] e1].
    destruct (panicked res); [done |].
    destruct (run maskAny ops r1 e1) as [[[evs1 r2] e2] |] eqn:Hrun;
      [| done].
    intros [= <- <- <-]. simpl. rewrite <- Hop by done.
    by apply (IH r1 e1).
Qed.

(** C2, as the code has it: after any sequence of operations that does
    not panic, run from a new runner, the registry holds exactly the
    identifiers that [CreateContainer] returned to a [Start], whether or
    not that [Start] then returned an error, and which neither [Cleanup]
    nor the collector has removed since. *)
Theorem registry_tracks_created (image user volumesFrom : string)
    (gcDelay : Z) (e : env World) (ops : list op) (evs : list event)
    (r' : dockerRunner) (e' : env World) :
  run maskAny ops (NewDockerRunner image user volumesFrom gcDelay) e
  = Some (evs, r', e') →
  registered r' = created_ids evs.
Proof.
  intros Hrun. apply run_registered in Hrun. rewrite Hrun.
  unfold created_ids. f_equal.
Qed.

(** C9, as the code has it: the handle's [Cleanup] asks for the forced
    removal of its container and returns the answer (through [maskAny]);
    it leaves the runner, and so the registry, as it was. *)
Theorem handle_Cleanup_keeps_registry (p : dockerContainer)
    (r : dockerRunner) (e : env World) :
  let '(res, r', e') := run_op maskAny (OpHandle HCleanup p) r e in
  r' = r
  ∧ registered r' = registered r
  ∧ ∃ answer,
      drop (length (calls e)) (calls e')
      = [forced_removal (ContainerID p) answer]
      ∧ res = ResError (maskAny <$> answer).
Proof.
  simpl. unfold dockerContainer_Cleanup, client_RemoveContainer.
  destruct (RemoveContainer _ _) as [w [err |]]; simpl;
    (split; [done |]); (split; [done |]);
    eexists; rewrite drop_app_length; split; reflexivity.
Qed.
End RunProperties.

Lemma registry_tracks_created_witness :
  let e := script_env 0
             [ReplyError None; ReplyContainer (inl container_c1);
              ReplyError (Some (ClientError "cannot start"));
              ReplyContainer (inr (ClientError "busy"))] in
  let ops := [OpStart "arangod" [] [] [8529] "node1"; OpCollect] in
  ∃ evs r' e',
    run mask_keeping_cause ops
      (NewDockerRunner "arangodb" EmptyString EmptyString 0) e
    = Some (evs, r', e')
    ∧ registered r' = created_ids evs.
Proof.
  intros e ops.
  destruct (run mask_keeping_cause ops
              (NewDockerRunner "arangodb" EmptyString EmptyString 0) e)
    as [[[evs r'] e'] |] eqn:Hrun; [| vm_compute in Hrun; discriminate Hrun].
  exists evs, r', e'. split; [reflexivity |].
  exact (registry_tracks_created mask_keeping_cause "arangodb" EmptyString
           EmptyString 0 e ops evs r' e' Hrun).
Defined.

(** C2 as stated fails: the creation succeeds, the start does not, so
    [Start] returns an error; yet the identifier is registered, and the
    registry is not the set of identifiers of successful [Start]s. *)
Lemma registry_holds_failed_start :
  let e := script_env 0
             [ReplyError None; ReplyContainer (inl container_c1);
              ReplyError (Some (ClientError "cannot start"))] in
  let ops := [OpStart "arangod" [] [] [8529] "node1"] in
  ∃ evs r' e' err,
    run mask_keeping_cause ops bind_runner e = Some (evs, r', e')
    ∧ ev_result <$> evs = [ResStart (Err err)]
    ∧ "c1" ∈ registered r'
    ∧ registered r' ≠ started_ids evs.
Proof.
  intros e ops.
  destruct (run mask_keeping_cause ops
              bind_runner e)
    as [[[evs r'] e'] |] eqn:Hrun; [| vm_compute in Hrun; discriminate Hrun].
  vm_compute in Hrun. injection Hrun as <- <- <-.
  eexists _, _, _, _. split; [reflexivity |]. split; [reflexivity |].
  assert (Hin : "c1" ∈ dom (<[ "c1" := 0 ]> (∅ : gmap string Z))).
  { rewrite dom_insert_L. apply elem_of_union_l. by apply elem_of_singleton. }
  split; [exact Hin |].
  intros Heq.
  assert (Hnot : "c1" ∉ (∅ : gset string)) by apply not_elem_of_empty.
  apply Hnot. exact (eq_ind _ (λ s, "c1" ∈ s) Hin _ Heq).
Qed.

(** C9 as stated fails: the handle's [Cleanup] succeeds and the identifier
    is still registered. *)
Lemma handle_Cleanup_leaves_entry :
  let e := script_env 0
             [ReplyError None; ReplyContainer (inl container_c1);
              ReplyError None; ReplyError None] in
  let ops := [OpStart "arangod" [] [] [8529] "node1";
              OpHandle HCleanup {| container := container_c1 |}] in
  ∃ evs r' e',
    run mask_keeping_cause ops bind_runner e = Some (evs, r', e')
    ∧ ev_result <$> evs
      = [ResStart (Ok {| container := container_c1 |}); ResError None]
    ∧ "c1" ∈ registered r'.
Proof.
  intros e ops.
  destruct (run mask_keeping_cause ops
              bind_runner e)
    as [[[evs r'] e'] |] eqn:Hrun; [| vm_compute in Hrun; discriminate Hrun].
  vm_compute in Hrun. injection Hrun as <- <- <-.
  eexists _, _, _. split; [reflexivity |]. split; [reflexivity |].
  assert (Hin : "c1" ∈ dom (<[ "c1" := 0 ]> (∅ : gmap string Z))).
  { rewrite dom_insert_L. apply elem_of_union_l. by apply elem_of_singleton. }
  exact Hin.
Qed.


(** * Further properties of the runner *)

(** ** Errors through the masking layer *)

Lemma isNoSuchContainer_mask (err : error) :
  isNoSuchContainer (mask_keeping_cause err) = isNoSuchContainer err.
Proof. destruct err; reflexivity. Qed.

(** X1: an error counts as a missing container exactly when it is a
    [NoSuchContainer] value or an errgo error whose cause is one; wrapping
    it any number of times in errgo errors that keep the cause does not
    change that, and an errgo error whose cause is masked is not
    recognised, whatever it wraps. *)
Theorem isNoSuchContainer_cause (err : error) (n : nat) :
  (isNoSuchContainer err = true
   ↔ (∃ id, err = NoSuchContainer id)
     ∨ (∃ id u, err = ErrgoErr (NoSuchContainer id) u))
  ∧ isNoSuchContainer (Nat.iter n mask_keeping_cause err)
    = isNoSuchContainer err
  ∧ ∀ u, isNoSuchContainer (ErrgoMasked u) = false.
Proof.
  split; [| split].
  - split.
    + destruct err as [id | msg | c u | u]; try discriminate.
      * intros _. left. by exists id.
      * destruct c as [id | | |]; try discriminate. intros _. right.
        by exists id, u.
    + intros [[id ->] | (id & u & ->)]; reflexivity.
  - induction n as [| n IH]; [done |]. simpl.
    by rewrite isNoSuchContainer_mask.
  - done.
Qed.

Lemma isNoSuchContainer_cause_witness :
  isNoSuchContainer
    (mask_keeping_cause (mask_keeping_cause (NoSuchContainer "c1"))) = true.
Proof.
  destruct (isNoSuchContainer_cause (NoSuchContainer "c1") 2) as (_ & Hn & _).
  exact Hn.
Defined.

(** ** Recording and unrecording *)

Lemma set_containerIDs_same (r : dockerRunner) :
  set_containerIDs r (containerIDs r) = r.
Proof. by destruct r. Qed.

Lemma recorded_unrecord (r : dockerRunner) (id id' : string) :
  recorded (unrecordContainerID r id) id'
  = if decide (id = id') then None else recorded r id'.
Proof.
  unfold recorded, unrecordContainerID.
  destruct (containerIDs r) as [m |] eqn:Hm; simpl.
  - apply lookup_delete.
  - rewrite Hm. by case_decide.
Qed.

Lemma registered_recorded (r : dockerRunner) (id : string) :
  id ∈ registered r ↔ is_Some (recorded r id).
Proof.
  unfold registered, recorded. destruct (containerIDs r) as [m |].
  - apply elem_of_dom.
  - split; [by intros ?%not_elem_of_empty | by intros [? ?]].
Qed.

Lemma unrecordContainerID_fresh (r : dockerRunner) (id : string) :
  id ∉ registered r → unrecordContainerID r id = r.
Proof.
  intros Hnot. unfold unrecordContainerID.
  destruct (containerIDs r) as [m |] eqn:Hm; [| done].
  rewrite delete_id.
  - rewrite <- Hm. apply set_containerIDs_same.
  - apply not_elem_of_dom. unfold registered in Hnot. by rewrite Hm in Hnot.
Qed.

Section Recording.
Context {World : Type} `{!DockerClient World}.

(** X2: on a registry that is not nil, recording an identifier stores the
    instant the clock shows, whether or not the identifier was there
    before, and leaves every other entry alone; unrecording an identifier
    that was new gives back the registry as it was. *)
Theorem recordContainerID_lookup (r : dockerRunner) (e : env World)
    (id : string) (m : gmap string Z) :
  containerIDs r = Some m →
  ∃ r1,
    (recordContainerID r e id).1 = Some r1
    ∧ recorded r1 id = Some (now e).2
    ∧ (∀ id', id' ≠ id → recorded r1 id' = recorded r id')
    ∧ registered r1 = {[ id ]} ∪ registered r
    ∧ (recorded r id = None → unrecordContainerID r1 id = r).
Proof.
  intros Hm. unfold recordContainerID. destruct (now e) as [e1 t]. simpl.
  rewrite Hm. eexists. split; [reflexivity |].
  unfold recorded, registered. simpl. rewrite Hm.
  split; [apply lookup_insert_eq |].
  split; [intros id' Hne; by apply lookup_insert_ne |].
  split; [apply dom_insert_L |].
  intros Hnone. unfold unrecordContainerID. simpl.
  rewrite delete_insert_id by done. destruct r. simpl in *. by rewrite Hm.
Qed.

(** X3: unrecording removes the entry of the identifier and no other; it
    does nothing when the identifier is not registered, in particular on
    a nil registry, and doing it twice is doing it once. *)
Theorem unrecordContainerID_effect (r : dockerRunner) (id : string) :
  recorded (unrecordContainerID r id) id = None
  ∧ (∀ id', id' ≠ id →
       recorded (unrecordContainerID r id) id' = recorded r id')
  ∧ (id ∉ registered r → unrecordContainerID r id = r)
  ∧ (containerIDs r = None → unrecordContainerID r id = r)
  ∧ unrecordContainerID (unrecordContainerID r id) id
    = unrecordContainerID r id.
Proof.
  split; [| split; [| split; [| split]]].
  - rewrite recorded_unrecord. by rewrite decide_True.
  - intros id' Hne. rewrite recorded_unrecord. by rewrite decide_False.
  - apply unrecordContainerID_fresh.
  - intros Hnil. unfold unrecordContainerID. by rewrite Hnil.
  - apply unrecordContainerID_fresh. rewrite registered_unrecord.
    intros [_ Hnot]%elem_of_difference. apply Hnot. by apply elem_of_singleton.
Qed.
End Recording.

Lemma recordContainerID_lookup_witness :
  ∃ r1,
    (recordContainerID bind_runner (script_env 42 []) "c1").1 = Some r1
    ∧ recorded r1 "c1" = Some 42.
Proof.
  destruct (recordContainerID_lookup bind_runner (script_env 42 []) "c1" ∅
              eq_refl) as (r1 & Hr1 & Hts & _).
  exists r1. split; [exact Hr1 | exact Hts].
Defined.

Lemma unrecordContainerID_effect_witness :
  unrecordContainerID bind_runner "c1" = bind_runner.
Proof.
  destruct (unrecordContainerID_effect bind_runner "c1")
    as (_ & _ & Hfresh & _).
  apply Hfresh. apply not_elem_of_empty.
Defined.

(** ** More on Start *)

Section StartFurther.
Context {World : Type} `{!DockerClient World}.
Variable maskAny : error → error.

(** X4: when [Start] returns a handle, the pull, the creation and the
    start all succeeded, in that order and with no other call; the handle
    is for the container that was created, and its identifier is
    registered with a timestamp, on top of the entries that were there. *)
Theorem Start_success (r : dockerRunner) (e : env World) (command : string)
    (args : list string) (volumes : list Volume) (ports : list Z)
    (containerName : string) (p : dockerContainer) (r' : dockerRunner)
    (e' : env World) :
  Start maskAny r e command args volumes ports containerName = (Ok p, r', e') →
  let opts := create_options r command args volumes ports containerName in
  ∃ m t,
    containerIDs r = Some m
    ∧ containerIDs r' = Some (<[ ContainerID p := t ]> m)
    ∧ recorded r' (ContainerID p) = Some t
    ∧ drop (length (calls e)) (calls e')
      = [CallPull (pull_options r) None;
         CallCreate opts (inl (container p));
         CallStart (ContainerID p) (HostConfig opts) None].
Proof.
  intros Hstart opts.
  destruct (Start_cases maskAny r e command args volumes ports containerName)
    as (res & r1 & e1 & Heq & Hcases).
  rewrite Hstart in Heq. injection Heq as <- <- <-.
  destruct Hcases as [(err & [=] & _) | [(err & [=] & _)
    | [(c & [=] & _) | (c & m & t & sres & Hm & -> & Hc & Hres)]]].
  destruct sres as [err |]; [discriminate Hres |].
  injection Hres as ->. exists m, t. unfold ContainerID, recorded. simpl.
  split; [done |]. split; [done |].
  split; [apply lookup_insert_eq |]. by rewrite Hc, drop_app_length.
Qed.

(** X5: whatever its outcome, [Start] leaves the settings of the runner
    alone and marks the collector as started; it removes no entry of the
    registry, and changes none but that of a container it has created. *)
Theorem Start_frame (r : dockerRunner) (e : env World) (command : string)
    (args : list string) (volumes : list Volume) (ports : list Z)
    (containerName : string) :
  let '(res, r', e') :=
    Start maskAny r e command args volumes ports containerName in
  let seg := drop (length (calls e)) (calls e') in
  same_configuration r r'
  ∧ gcStarted r' = true
  ∧ registered r ⊆ registered r'
  ∧ (∀ id, id ∉ created_in seg → recorded r' id = recorded r id).
Proof.
  destruct (Start_cases maskAny r e command args volumes ports containerName)
    as (res & r' & e' & -> & Hcases).
  destruct Hcases as [(err & -> & -> & Hc) | [(err & -> & -> & Hc)
    | [(c & -> & -> & _ & Hc) | (c & m & t & sres & Hm & -> & Hc & ->)]]];
    rewrite Hc, drop_app_length; (split; [done |]); (split; [done |]);
    try (split; [done | done]).
  split.
  - unfold registered. simpl. rewrite Hm, dom_insert_L.
    apply union_subseteq_r.
  - intros id Hnot. unfold recorded. simpl. rewrite Hm.
    apply lookup_insert_ne. intros <-. apply Hnot. simpl.
    apply elem_of_union_l. by apply elem_of_singleton.
Qed.

(** X6: [Start] panics exactly when the registry is nil and the creation
    succeeds; on a registry that is not nil it returns a handle or an
    error, and the registry is still not nil afterwards. *)
Theorem Start_panics_only_on_nil (r : dockerRunner) (e : env World)
    (command : string) (args : list string) (volumes : list Volume)
    (ports : list Z) (containerName : string) :
  let '(res, r', e') :=
    Start maskAny r e command args volumes ports containerName in
  let seg := drop (length (calls e)) (calls e') in
  (res = Panic
   ↔ containerIDs r = None ∧ ∃ o c, CallCreate o (inl c) ∈ seg)
  ∧ (containerIDs r ≠ None → res ≠ Panic ∧ containerIDs r' ≠ None).
Proof.
  destruct (Start_cases maskAny r e command args volumes ports containerName)
    as (res & r' & e' & -> & Hcases).
  destruct Hcases as [(err & -> & -> & Hc) | [(err & -> & -> & Hc)
    | [(c & -> & -> & Hnil & Hc) | (c & m & t & sres & Hm & -> & Hc & ->)]]];
    rewrite Hc, drop_app_length.
  - split; [| done]. split; [done |]. intros (_ & o & c & Hin). in_seg Hin.
  - split; [| done]. split; [done |]. intros (_ & o & c & Hin). in_seg Hin.
  - split; [| done]. split; [| done]. intros _. split; [done |].
    eexists _, c. apply elem_of_cons. right. apply elem_of_cons. by left.
  - split.
    + split; [by destruct sres |]. intros [Hnil _]. by rewrite Hnil in Hm.
    + intros _. split; [by destruct sres | done].
Qed.
End StartFurther.

Lemma Start_success_witness :
  let e := script_env 7
             [ReplyError None; ReplyContainer (inl container_c1);
              ReplyError None] in
  ∃ p r' e',
    Start mask_keeping_cause bind_runner e "arangod" [] [] [8529] "node1"
    = (Ok p, r', e')
    ∧ recorded r' (ContainerID p) = Some 7.
Proof.
  intros e.
  destruct (Start mask_keeping_cause bind_runner e "arangod" [] [] [8529]
              "node1") as [[res r'] e'] eqn:Hstart.
  assert (Hres : res = Ok {| container := container_c1 |})
    by (vm_compute in Hstart; by injection Hstart as <- _ _).
  subst res. eexists _, r', e'. split; [reflexivity |].
  destruct (Start_success mask_keeping_cause _ _ _ _ _ _ _ _ _ _ Hstart)
    as (m & t & _ & Hr' & Hrec & _).
  rewrite Hrec. f_equal.
  vm_compute in Hstart. injection Hstart as <- _.
  unfold ContainerID in Hr'. simpl in Hr'.
  injection Hr' as Hr'.
  apply (f_equal (λ m, m !! "c1")) in Hr'.
  rewrite lookup_insert_eq in Hr'. vm_compute in Hr'. by injection Hr' as <-.
Defined.

Lemma Start_frame_witness :
  let r := set_containerIDs bind_runner (Some (<[ "old" := 1 ]> ∅)) in
  let e := script_env 7
             [ReplyError None; ReplyContainer (inl container_c1);
              ReplyError None] in
  recorded
    (Start mask_keeping_cause r e "arangod" [] [] [8529] "node1").1.2 "old"
  = Some 1.
Proof.
  intros r e.
  pose proof (Start_frame mask_keeping_cause r e "arangod" [] [] [8529]
                "node1") as H.
  destruct (Start mask_keeping_cause r e "arangod" [] [] [8529] "node1")
    as [[res r'] e'] eqn:Hstart.
  destruct H as (_ & _ & _ & Hother). simpl. rewrite Hother; [reflexivity |].
  vm_compute in Hstart. injection Hstart as _ _ <-.
  simpl. intros Hin. apply elem_of_union in Hin as [Hin | Hin].
  - apply elem_of_singleton in Hin. discriminate Hin.
  - by apply not_elem_of_empty in Hin.
Defined.

Lemma Start_panics_only_on_nil_witness :
  let e := script_env 7
             [ReplyError None; ReplyContainer (inl container_c1);
              ReplyError None] in
  (Start mask_keeping_cause bind_runner e "arangod" [] [] [8529] "node1").1.1
  ≠ Panic.
Proof.
  intros e.
  pose proof (Start_panics_only_on_nil mask_keeping_cause bind_runner e
                "arangod" [] [] [8529] "node1") as H.
  destruct (Start mask_keeping_cause bind_runner e "arangod" [] [] [8529]
              "node1") as [[res r'] e'].
  destruct H as (_ & Hsafe). by destruct Hsafe as [Hres _].
Defined.

(** ** More on the collector *)

Lemma unrecord_same_configuration (r : dockerRunner) (id : string) :
  same_configuration r (unrecordContainerID r id)
  ∧ gcStarted (unrecordContainerID r id) = gcStarted r.
Proof. unfold unrecordContainerID. by destruct (containerIDs r). Qed.

Lemma unrecord_not_nil (r : dockerRunner) (id : string) :
  containerIDs r ≠ None → containerIDs (unrecordContainerID r id) ≠ None.
Proof. unfold unrecordContainerID. by destruct (containerIDs r). Qed.

Section CollectorFurther.
Context {World : Type} `{!DockerClient World}.

(** A visit leaves the runner as it was or unrecords the candidate. *)
Lemma gc_visit_runner (r : dockerRunner) (e : env World) (id : string) :
  (gc_visit (r, e) id).1 = r
  ∨ (gc_visit (r, e) id).1 = unrecordContainerID r id.
Proof.
  unfold gc_visit, client_InspectContainer, client_RemoveContainer.
  destruct (InspectContainer (world e) id) as [w1 [c | err]].
  - destruct (canGC r _ c) as [e2 [|]]; [| by left].
    destruct (RemoveContainer _ _) as [w3 [rerr |]]; [by left | by right].
  - destruct (isNoSuchContainer err); [by right | by left].
Qed.

(** Induction over the candidates of a pass. *)
Lemma gc_loop_ind (P : dockerRunner → Prop) (ids : list string) :
  (∀ r id, id ∈ ids → P r → P (unrecordContainerID r id)) →
  ∀ r e, P r → P (fold_left gc_visit ids (r, e)).1.
Proof.
  induction ids as [| id ids IH]; intros Hstep r e HP; [done |].
  change (fold_left gc_visit (id :: ids) (r, e))
    with (fold_left gc_visit ids (gc_visit (r, e) id)).
  pose proof (gc_visit_runner r e id) as Hr.
  destruct (gc_visit (r, e) id) as [r1 e1]. simpl in Hr.
  apply IH.
  - intros r2 id2 Hin. apply Hstep. by right.
  - destruct Hr as [-> | ->]; [done |]. apply Hstep; [by left | done].
Qed.

Lemma gc_pass_ind (P : dockerRunner → Prop) (r : dockerRunner)
    (e : env World) :
  (∀ r' id, id ∈ (gatherCollectableContainerIDs r e).2 →
     P r' → P (unrecordContainerID r' id)) →
  P r → P (gc_pass r e).1.
Proof.
  unfold gc_pass. destruct (gatherCollectableContainerIDs r e) as [e1 ids].
  simpl. intros Hstep HP. by apply gc_loop_ind.
Qed.

(** What a runner reached by unrecording keeps of the runner [r]. *)
Lemma shrunk_unrecord (r x : dockerRunner) (id : string) :
  same_configuration r x ∧ gcStarted x = gcStarted r
  ∧ (∀ id ts, recorded x id = Some ts → recorded r id = Some ts)
  ∧ (containerIDs r ≠ None → containerIDs x ≠ None) →
  same_configuration r (unrecordContainerID x id)
  ∧ gcStarted (unrecordContainerID x id) = gcStarted r
  ∧ (∀ id' ts,
       recorded (unrecordContainerID x id) id' = Some ts →
       recorded r id' = Some ts)
  ∧ (containerIDs r ≠ None → containerIDs (unrecordContainerID x id) ≠ None).
Proof.
  intros ((Hi & Hu & Hv & Hd) & Hs & Hrec & Hnil).
  destruct (unrecord_same_configuration x id) as ((Hi' & Hu' & Hv' & Hd') & Hs').
  split; [| split; [| split]].
  - unfold same_configuration. by rewrite Hi', Hu', Hv', Hd'.
  - by rewrite Hs'.
  - intros id' ts. rewrite recorded_unrecord. case_decide; [done |].
    apply Hrec.
  - intros Hr. by apply unrecord_not_nil, Hnil.
Qed.

Lemma gc_shrinks (n : nat) (r x : dockerRunner) (e : env World) :
  same_configuration r x ∧ gcStarted x = gcStarted r
  ∧ (∀ id ts, recorded x id = Some ts → recorded r id = Some ts)
  ∧ (containerIDs r ≠ None → containerIDs x ≠ None) →
  same_configuration r (gc n x e).1 ∧ gcStarted (gc n x e).1 = gcStarted r
  ∧ (∀ id ts, recorded (gc n x e).1 id = Some ts → recorded r id = Some ts)
  ∧ (containerIDs r ≠ None → containerIDs (gc n x e).1 ≠ None).
Proof.
  revert x e. induction n as [| n IH]; intros x e Hx; [done |].
  simpl.
  pose proof (gc_pass_ind
    (λ y, same_configuration r y ∧ gcStarted y = gcStarted r
          ∧ (∀ id ts, recorded y id = Some ts → recorded r id = Some ts)
          ∧ (containerIDs r ≠ None → containerIDs y ≠ None)) x e) as Hpass.
  destruct (gc_pass x e) as [x1 e1]. simpl in Hpass. apply IH.
  apply Hpass; [| done]. intros y id _. apply shrunk_unrecord.
Qed.

(** X10: however many passes the collector makes, it never adds an entry
    to the registry and never changes a timestamp: every entry there
    afterwards was there before, with the same timestamp; it leaves the
    settings of the runner alone, and a registry that was not nil is
    still not nil. *)
Theorem gc_only_shrinks (n : nat) (r : dockerRunner) (e : env World) :
  let r' := (gc n r e).1 in
  same_configuration r r'
  ∧ gcStarted r' = gcStarted r
  ∧ (∀ id ts, recorded r' id = Some ts → recorded r id = Some ts)
  ∧ registered r' ⊆ registered r
  ∧ (containerIDs r ≠ None → containerIDs r' ≠ None).
Proof.
  destruct (gc_shrinks n r r e) as (Hc & Hs & Hrec & Hnil); [done |].
  simpl. split; [done |]. split; [done |]. split; [done |]. split; [| done].
  intros id [ts Hts]%registered_recorded. apply registered_recorded.
  exists ts. by apply Hrec.
Qed.

Lemma gather_not_candidate (r : dockerRunner) (e : env World) (id : string)
    (ts : Z) :
  int64_min < gcDelay r ≤ int64_max →
  recorded r id = Some ts →
  (now e).2 - gcDelay r ≤ ts →
  id ∉ (gatherCollectableContainerIDs r e).2.
Proof.
  intros Hd Hrec Hge. rewrite gather_filter by done.
  intros [[id' ts'] [-> [Hlt Hin]%list_elem_of_filter]]%list_elem_of_fmap.
  simpl in *. apply range_keys_elem in Hin. rewrite Hrec in Hin.
  injection Hin as <-. lia.
Qed.

(** X11: an entry recorded at or after the instant [now - gcDelay] of a
    pass is not inspected in that pass and comes out of it unchanged,
    whatever the daemon answers about the other containers. *)
Theorem gc_pass_spares_fresh (r : dockerRunner) (e : env World)
    (id : string) (ts : Z) :
  int64_min < gcDelay r ≤ int64_max →
  recorded r id = Some ts →
  (now e).2 - gcDelay r ≤ ts →
  recorded (gc_pass r e).1 id = Some ts
  ∧ id ∉ inspected_ids (drop (length (calls e)) (calls (gc_pass r e).2)).
Proof.
  intros Hd Hrec Hge.
  pose proof (gather_not_candidate r e id ts Hd Hrec Hge) as Hnot.
  split.
  - rewrite <- Hrec.
    apply (gc_pass_ind (λ x, recorded x id = recorded r id)); [| done].
    intros x id0 Hin Hx. rewrite recorded_unrecord.
    rewrite decide_False; [done |]. by intros ->.
  - destruct (gc_pass_effect r e) as (seg & Hc & Hi & _).
    by rewrite Hc, drop_app_length, Hi.
Qed.

(** X12: for a candidate that the daemon can inspect, the collector asks
    for a removal only if [canGC] accepts the container, and then without
    force; a removal that succeeds unrecords the identifier, and one that
    fails is logged as a warning and leaves the runner as it was. *)
Theorem gc_visit_inspected (r : dockerRunner) (e : env World) (id : string)
    (c : docker_Container) :
  (InspectContainer (world e) id).2 = inl c →
  let ok := (canGC r (client_InspectContainer e id).1 c).2 in
  let '(r', e') := gc_visit (r, e) id in
  let seg := drop (length (calls e)) (calls e') in
  (ok = false →
     r' = r ∧ seg = [CallInspect id (inl c)] ∧ logged e' = logged e)
  ∧ (ok = true →
     ∃ answer,
       seg = [CallInspect id (inl c);
              CallRemove {| rmID := id; Force := false |} answer]
       ∧ match answer with
         | None =>
             r' = unrecordContainerID r id
             ∧ logged e'
               = logged e ++ [Infof "Removing old container %s" [ArgS id]]
         | Some err =>
             r' = r
             ∧ logged e'
               = logged e
                   ++ [Infof "Removing old container %s" [ArgS id];
                       Warningf "Failed to remove container %s: %#v"
                         [ArgS id; ArgE err]]
         end).
Proof.
  intros Hinspect ok. subst ok.
  unfold gc_visit, client_InspectContainer in *.
  destruct (InspectContainer (world e) id) as [w1 res]. simpl in Hinspect.
  subst res. simpl.
  pose proof (canGC_env r (called e w1 (CallInspect id (inl c))) c) as Henv.
  destruct (canGC r _ c) as [e2 ok]. simpl in Henv |- *.
  assert (Hc2 : calls e2 = calls e ++ [CallInspect id (inl c)]
                ∧ logged e2 = logged e).
  { rewrite Henv. unfold now. simpl. by destruct (time_Now w1). }
  destruct Hc2 as [Hc2 Hl2].
  destruct ok.
  - unfold client_RemoveContainer. simpl.
    destruct (RemoveContainer (world e2) _) as [w3 [err |]].
    + split; [done |]. intros _. exists (Some err). simpl.
      by rewrite Hc2, Hl2, <- !app_assoc, drop_app_length.
    + split; [done |]. intros _. exists None. simpl.
      by rewrite Hc2, Hl2, <- !app_assoc, drop_app_length.
  - split; [| done]. intros _. by rewrite Hc2, Hl2, drop_app_length.
Qed.

Lemma gc_visit_calls (r : dockerRunner) (e : env World) (id : string) :
  ∃ seg,
    calls (gc_visit (r, e) id).2 = calls e ++ seg
    ∧ Forall (λ c, collector_call c = true) seg.
Proof.
  unfold gc_visit, client_InspectContainer. simpl.
  destruct (InspectContainer (world e) id) as [w1 [c | err]].
  - pose proof (canGC_env r (called e w1 (CallInspect id (inl c))) c) as Henv.
    destruct (canGC r _ c) as [e2 ok]. simpl in Henv.
    assert (He2 : calls e2 = calls e ++ [CallInspect id (inl c)]).
    { rewrite Henv. unfold now. simpl. by destruct (time_Now w1). }
    destruct ok.
    + unfold client_RemoveContainer. simpl.
      destruct (RemoveContainer (world e2) _) as [w3 answer].
      exists [CallInspect id (inl c);
              CallRemove {| rmID := id; Force := false |} answer].
      split; [| by repeat constructor].
      destruct answer; simpl; by rewrite He2, <- app_assoc.
    + exists [CallInspect id (inl c)]. split; [done | by repeat constructor].
  - exists [CallInspect id (inr err)].
    split; [by destruct (isNoSuchContainer err) | by repeat constructor].
Qed.

Lemma gc_loop_calls (ids : list string) (r : dockerRunner) (e : env World) :
  ∃ seg,
    calls (fold_left gc_visit ids (r, e)).2 = calls e ++ seg
    ∧ Forall (λ c, collector_call c = true) seg.
Proof.
  revert r e. induction ids as [| id ids IH]; intros r e.
  - exists []. simpl. by rewrite app_nil_r.
  - change (fold_left gc_visit (id :: ids) (r, e))
      with (fold_left gc_visit ids (gc_visit (r, e) id)).
    destruct (gc_visit_calls r e id) as (seg1 & Hc1 & Hf1).
    destruct (gc_visit (r, e) id) as [r1 e1]. simpl in Hc1.
    destruct (IH r1 e1) as (seg2 & Hc2 & Hf2).
    exists (seg1 ++ seg2). rewrite Hc2, Hc1, <- app_assoc.
    split; [done | by apply Forall_app].
Qed.

Lemma gc_calls (n : nat) (r : dockerRunner) (e : env World) :
  ∃ seg,
    calls (gc n r e).2 = calls e ++ seg
    ∧ Forall (λ c, collector_call c = true) seg.
Proof.
  revert r e. induction n as [| n IH]; intros r e.
  - exists []. simpl. by rewrite app_nil_r.
  - simpl. unfold gc_pass.
    pose proof (gather_env r e) as Henv.
    destruct (gatherCollectableContainerIDs r e) as [e1 ids]. simpl in Henv.
    destruct (gc_loop_calls ids r e1) as (seg1 & Hc1 & Hf1).
    destruct (fold_left gc_visit ids (r, e1)) as [r2 e2]. simpl in Hc1.
    destruct (IH r2 (sleep e2 time_Minute)) as (seg2 & Hc2 & Hf2).
    exists (seg1 ++ seg2). rewrite Hc2. simpl. rewrite Hc1, Henv.
    unfold now. destruct (time_Now (world e)). simpl.
    rewrite <- app_assoc. split; [done | by apply Forall_app].
Qed.

(** X13: however many passes it makes, the collector only inspects
    containers and removes them without force: it never pulls, creates,
    starts, stops, kills or waits, and never forces a removal. *)
Theorem gc_calls_only_collector (n : nat) (r : dockerRunner)
    (e : env World) :
  Forall (λ c, collector_call c = true)
    (drop (length (calls e)) (calls (gc n r e).2)).
Proof.
  destruct (gc_calls n r e) as (seg & -> & Hf). by rewrite drop_app_length.
Qed.

(** X9: once [Cleanup] has run, a second [Cleanup] and a collector pass
    find nothing to do: they make no call and log nothing, and the
    registry stays nil. *)
Theorem after_Cleanup_nothing_to_do (r : dockerRunner) (e e2 : env World) :
  let r1 := (Cleanup r e).1.2 in
  Cleanup r1 e2 = (None, r1, e2)
  ∧ gc_pass r1 e2 = (r1, (now e2).1)
  ∧ (gatherCollectableContainerIDs r1 e2).2 = []
  ∧ ∀ id, unrecordContainerID r1 id = r1.
Proof.
  simpl. split; [done |]. unfold gc_pass, gatherCollectableContainerIDs.
  simpl. by destruct (now e2).
Qed.
End CollectorFurther.

Lemma gc_only_shrinks_witness :
  let r := set_containerIDs bind_runner (Some (<[ "gone" := 1 ]> ∅)) in
  let e := script_env 1000
             [ReplyContainer (inr (NoSuchContainer "gone"))] in
  containerIDs (gc 2 r e).1 ≠ None.
Proof.
  intros r e. destruct (gc_only_shrinks 2 r e) as (_ & _ & _ & _ & Hnil).
  by apply Hnil.
Defined.

Lemma gc_pass_spares_fresh_witness :
  let r := set_containerIDs bind_runner
             (Some (<[ "old" := 100 ]> (<[ "new" := 900 ]> ∅))) in
  let e := script_env 1000
             [ReplyContainer (inr (NoSuchContainer "old"))] in
  recorded (gc_pass r e).1 "new" = Some 900.
Proof.
  intros r e.
  assert (Hd : int64_min < gcDelay r ≤ int64_max)
    by (unfold int64_min, int64_max; simpl; lia).
  destruct (gc_pass_spares_fresh r e "new" 900 Hd) as [Hkept _];
    [reflexivity | simpl; lia | exact Hkept].
Defined.

Lemma gc_visit_inspected_witness :
  let r := set_containerIDs bind_runner (Some (<[ "c1" := 100 ]> ∅)) in
  let e := script_env 1000
             [ReplyContainer (inl container_c1); ReplyError None] in
  (gc_visit (r, e) "c1").1 = unrecordContainerID r "c1".
Proof.
  intros r e.
  pose proof (gc_visit_inspected r e "c1" container_c1 eq_refl) as H.
  destruct (gc_visit (r, e) "c1") as [r' e'] eqn:Hvisit.
  destruct H as [_ Hok]. destruct Hok as (answer & Hseg & Hr'); [reflexivity |].
  vm_compute in Hvisit. injection Hvisit as _ <-.
  injection Hseg as <-. simpl. destruct Hr' as [-> _]. reflexivity.
Defined.

(** ** More on runs and handles *)

Section RunFurther.
Context {World : Type} `{!DockerClient World}.
Variable maskAny : error → error.

Lemma handle_call_not_panicked (m : handle_method) (p : dockerContainer)
    (e : env World) :
  panicked (handle_call maskAny m p e).1 = false.
Proof.
  destruct m; simpl; [done | | |].
  - by destruct (Terminate maskAny p e).
  - by destruct (Kill maskAny p e).
  - by destruct (dockerContainer_Cleanup maskAny p e).
Qed.

(** An operation other than [Cleanup], on a registry that is not nil. *)
Lemma run_op_not_nil (o : op) (r : dockerRunner) (e : env World) :
  is_Cleanup o = false →
  containerIDs r ≠ None →
  panicked (run_op maskAny o r e).1.1 = false
  ∧ containerIDs (run_op maskAny o r e).1.2 ≠ None.
Proof.
  intros Ho Hr.
  destruct o as [command args volumes ports containerName | | | m p]; simpl.
  - destruct (Start_cases maskAny r e command args volumes ports
                containerName) as (res & r' & e' & -> & Hcases).
    destruct Hcases as [(err & -> & -> & Hc) | [(err & -> & -> & Hc)
      | [(c & -> & -> & Hnil & Hc) | (c & m & t & sres & Hm & -> & Hc & ->)]]];
      simpl; try done.
    by destruct sres.
  - discriminate Ho.
  - pose proof (gc_pass_ind (λ x, containerIDs x ≠ None) r e) as Hpass.
    destruct (gc_pass r e) as [r' e']. simpl in *. split; [done |].
    apply Hpass; [| done]. intros x id _. apply unrecord_not_nil.
  - pose proof (handle_call_not_panicked m p e) as Hp.
    by destruct (handle_call maskAny m p e) as [res e'].
Qed.

(** X7: from a runner whose registry is not nil, in particular a new one,
    a sequence of operations without [Cleanup] never panics: every
    operation gets its turn, and the registry is still not nil at the
    end. *)
Theorem run_without_Cleanup (ops : list op) (r : dockerRunner)
    (e : env World) :
  containerIDs r ≠ None →
  Forall (λ o, is_Cleanup o = false) ops →
  ∃ evs r' e',
    run maskAny ops r e = Some (evs, r', e')
    ∧ ev_op <$> evs = ops
    ∧ containerIDs r' ≠ None.
Proof.
  revert r e. induction ops as [| o ops IH]; intros r e Hr Hops.
  - by exists [], r, e.
  - apply Forall_cons in Hops as [Ho Hops]. simpl.
    destruct (run_op_not_nil o r e Ho Hr) as [Hp Hr1].
    destruct (run_op maskAny o r e) as [[res r1] e1]. simpl in Hp, Hr1.
    rewrite Hp.
    destruct (IH r1 e1 Hr1 Hops) as (evs & r' & e' & -> & Hevs & Hr').
    eexists _, r', e'. split; [reflexivity |]. split; [| done].
    rewrite fmap_cons. by rewrite Hevs.
Qed.

Lemma run_op_configuration (o : op) (r : dockerRunner) (e : env World) :
  same_configuration r (run_op maskAny o r e).1.2
  ∧ (gcStarted r = true → gcStarted (run_op maskAny o r e).1.2 = true).
Proof.
  destruct o as [command args volumes ports containerName | | | m p]; simpl.
  - destruct (Start_cases maskAny r e command args volumes ports
                containerName) as (res & r' & e' & -> & Hcases).
    destruct Hcases as [(err & -> & -> & Hc) | [(err & -> & -> & Hc)
      | [(c & -> & -> & Hnil & Hc) | (c & m & t & sres & Hm & -> & Hc & ->)]]];
      done.
  - done.
  - pose proof (gc_pass_ind
      (λ x, same_configuration r x ∧ gcStarted x = gcStarted r) r e) as Hpass.
    destruct (gc_pass r e) as [r' e']. simpl in *.
    destruct Hpass as [Hc Hs]; [| done | split; [done | by rewrite Hs]].
    intros x id _ [(Hi & Hu & Hv & Hd) Hs].
    destruct (unrecord_same_configuration x id)
      as ((Hi' & Hu' & Hv' & Hd') & Hs').
    unfold same_configuration. by rewrite Hi', Hu', Hv', Hd', Hs'.
  - by destruct (handle_call maskAny m p e) as [res e'].
Qed.

(** X8: no sequence of operations changes the settings the runner was
    constructed with (image, user, volumes-from, delay), and once the
    collector is marked as started it stays so. *)
Theorem run_keeps_configuration (ops : list op) (r : dockerRunner)
    (e : env World) (evs : list event) (r' : dockerRunner) (e' : env World) :
  run maskAny ops r e = Some (evs, r', e') →
  same_configuration r r' ∧ (gcStarted r = true → gcStarted r' = true).
Proof.
  revert r e evs. induction ops as [| o ops IH]; intros r e evs; simpl.
  - by intros [= <- <- <-].
  - destruct (run_op_configuration o r e) as [(Hi & Hu & Hv & Hd) Hs].
    destruct (run_op maskAny o r e) as [[res r1] e1]. simpl in *.
    destruct (panicked res); [done |].
    destruct (run maskAny ops r1 e1) as [[[evs1 r2] e2] |] eqn:Hrun; [| done].
    intros [= <- <- <-].
    destruct (IH r1 e1 evs1 Hrun) as [(Hi' & Hu' & Hv' & Hd') Hs'].
    unfold same_configuration. rewrite Hi', Hu', Hv', Hd'. auto.
Qed.

(** X14: every method of a handle makes exactly one call to the daemon,
    for the handle's own container: [Wait] waits, [Terminate] stops with
    a timeout of 60 seconds, [Kill] kills and [Cleanup] removes with
    force; each returns what the daemon answered, an error going through
    [maskAny], and logs nothing. *)
Theorem handle_methods_one_call (m : handle_method) (p : dockerContainer)
    (e : env World) :
  let '(res, e') := handle_call maskAny m p e in
  logged e' = logged e
  ∧ ∃ answer,
      drop (length (calls e)) (calls e')
      = [match m with
         | HWait => CallWait (ContainerID p)
         | HTerminate => CallStop (ContainerID p) 60 answer
         | HKill => CallKill (ContainerID p) answer
         | HCleanup => forced_removal (ContainerID p) answer
         end]
      ∧ res = match m with
              | HWait => ResNone
              | _ => ResError (maskAny <$> answer)
              end.
Proof.
  destruct m; simpl.
  - split; [done |]. exists None. by rewrite drop_app_length.
  - unfold Terminate, client_StopContainer.
    destruct (StopContainer _ _ _) as [w [err |]]; simpl;
      (split; [done |]); eexists; rewrite drop_app_length; split; reflexivity.
  - unfold Kill, client_KillContainer.
    destruct (KillContainer _ _) as [w [err |]]; simpl;
      (split; [done |]); eexists; rewrite drop_app_length; split; reflexivity.
  - unfold dockerContainer_Cleanup, client_RemoveContainer.
    destruct (RemoveContainer _ _) as [w [err |]]; simpl;
      (split; [done |]); eexists; rewrite drop_app_length; split; reflexivity.
Qed.
End RunFurther.

Lemma run_without_Cleanup_witness :
  let e := script_env 0
             [ReplyError None; ReplyContainer (inl container_c1);
              ReplyError None; ReplyError None] in
  let ops := [OpStart "arangod" [] [] [8529] "node1"; OpCollect;
              OpHandle HKill {| container := container_c1 |}] in
  ∃ evs r' e',
    run mask_keeping_cause ops bind_runner e = Some (evs, r', e')
    ∧ ev_op <$> evs = ops.
Proof.
  intros e ops.
  destruct (run_without_Cleanup mask_keeping_cause ops bind_runner e)
    as (evs & r' & e' & Hrun & Hops & _).
  - discriminate.
  - repeat constructor.
  - by exists evs, r', e'.
Defined.

Lemma run_keeps_configuration_witness :
  let e := script_env 0
             [ReplyError None; ReplyContainer (inl container_c1);
              ReplyError None; ReplyError None] in
  let ops := [OpStart "arangod" [] [] [8529] "node1"; OpCleanup] in
  ∃ evs r' e',
    run mask_keeping_cause ops volumes_from_runner e = Some (evs, r', e')
    ∧ volumesFrom r' = "starter".
Proof.
  intros e ops.
  destruct (run mask_keeping_cause ops volumes_from_runner e)
    as [[[evs r'] e'] |] eqn:Hrun; [| vm_compute in Hrun; discriminate Hrun].
  exists evs, r', e'. split; [reflexivity |].
  destruct (run_keeps_configuration mask_keeping_cause ops
              volumes_from_runner e evs r' e' Hrun) as [(_ & _ & Hv & _) _].
  exact Hv.
Defined.

(** ** More on the creation request *)

Lemma strconv_Itoa_inj (p q : Z) : strconv_Itoa p = strconv_Itoa q → p = q.
Proof.
  unfold strconv_Itoa. intros Heq.
  assert (Hnorm : ∀ z, NilZero.int_of_string
                         (NilZero.string_of_int (Z.to_int z))
                       = Some (Z.to_int z)).
  { intros z. apply NilZero.isi; destruct z as [| x | x]; simpl;
      try discriminate; intros [= Hnil];
      by apply DecimalPos.Unsigned.to_uint_nonnil in Hnil. }
  pose proof (Hnorm p) as Hp. rewrite Heq, Hnorm in Hp.
  injection Hp as Hp. apply (f_equal Z.of_int) in Hp.
  by rewrite !DecimalZ.of_to in Hp.
Qed.

Lemma port_key_inj : Inj (=) (=) (λ p, strconv_Itoa p +:+ "/tcp").
Proof.
  intros p q Heq. apply string_app_inv_tail in Heq.
  by apply strconv_Itoa_inj.
Qed.

Lemma publish_ports_fixed opts ports :
  let opts' := fold_left publish_port ports opts in
  Image (Config opts') = Image (Config opts)
  ∧ Entrypoint (Config opts') = Entrypoint (Config opts)
  ∧ Cmd (Config opts') = Cmd (Config opts)
  ∧ Tty (Config opts') = Tty (Config opts)
  ∧ User (Config opts') = User (Config opts)
  ∧ PublishAllPorts (HostConfig opts') = PublishAllPorts (HostConfig opts)
  ∧ AutoRemove (HostConfig opts') = AutoRemove (HostConfig opts).
Proof.
  revert opts. induction ports as [| p ports IH]; intros opts; simpl; [done |].
  destruct (IH (publish_port opts p)) as (-> & -> & -> & -> & -> & -> & ->).
  done.
Qed.

Lemma wire_volumes_fixed (r : dockerRunner) opts volumes :
  let opts' := wire_volumes r opts volumes in
  Name opts' = Name opts ∧ Config opts' = Config opts
  ∧ PortBindings (HostConfig opts') = PortBindings (HostConfig opts)
  ∧ PublishAllPorts (HostConfig opts') = PublishAllPorts (HostConfig opts)
  ∧ AutoRemove (HostConfig opts') = AutoRemove (HostConfig opts).
Proof.
  unfold wire_volumes. case_match; [done |].
  revert opts. induction volumes as [| v volumes IH]; intros opts; simpl;
    [done |].
  by destruct (IH (append_bind opts v)) as (-> & -> & -> & -> & ->).
Qed.

Lemma options_eq (o1 o2 : docker_CreateContainerOptions) :
  Name o1 = Name o2 →
  Image (Config o1) = Image (Config o2) →
  Entrypoint (Config o1) = Entrypoint (Config o2) →
  Cmd (Config o1) = Cmd (Config o2) →
  Tty (Config o1) = Tty (Config o2) →
  User (Config o1) = User (Config o2) →
  ExposedPorts (Config o1) = ExposedPorts (Config o2) →
  PortBindings (HostConfig o1) = PortBindings (HostConfig o2) →
  PublishAllPorts (HostConfig o1) = PublishAllPorts (HostConfig o2) →
  AutoRemove (HostConfig o1) = AutoRemove (HostConfig o2) →
  VolumesFrom (HostConfig o1) = VolumesFrom (HostConfig o2) →
  Binds (HostConfig o1) = Binds (HostConfig o2) →
  o1 = o2.
Proof.
  destruct o1 as [n1 [] []], o2 as [n2 [] []]. simpl. by intros; subst.
Qed.

Lemma publish_ports_exposed_set opts ports :
  ExposedPorts (Config (fold_left publish_port ports opts))
  = list_to_set ((λ p, strconv_Itoa p +:+ "/tcp") <$> ports)
    ∪ ExposedPorts (Config opts).
Proof.
  apply set_eq. intros k. rewrite publish_ports_exposed, elem_of_union.
  rewrite elem_of_list_to_set, list_elem_of_fmap. split.
  - intros [(p & Hp & ->) | H]; [left; by exists p | by right].
  - intros [(p & -> & Hp) | H]; [left; by exists p | by right].
Qed.

Lemma publish_ports_bindings_keys opts ports :
  dom (PortBindings (HostConfig (fold_left publish_port ports opts)))
  = list_to_set ((λ p, strconv_Itoa p +:+ "/tcp") <$> ports)
    ∪ dom (PortBindings (HostConfig opts)).
Proof.
  apply set_eq. intros k.
  rewrite elem_of_dom, publish_ports_bindings_dom, elem_of_union, elem_of_dom.
  rewrite elem_of_list_to_set, list_elem_of_fmap. split.
  - intros [(p & Hp & ->) | H]; [left; by exists p | by right].
  - intros [(p & -> & Hp) | H]; [left; by exists p | by right].
Qed.

Lemma strings_Replace_byte_clean (s : string) (old : ascii) :
  old ∉ String.list_ascii_of_string s →
  strings_Replace_byte s old EmptyString = s.
Proof.
  induction s as [| c s IH]; simpl; [done |]. intros Hnot.
  apply not_elem_of_cons in Hnot as [Hne Hnot].
  destruct (Ascii.eqb_spec c old) as [-> | _]; [done |]. by rewrite IH.
Qed.

Lemma strings_Replace_byte_gone (s : string) (old : ascii) :
  old ∉ String.list_ascii_of_string (strings_Replace_byte s old EmptyString).
Proof.
  rewrite strings_Replace_byte_empty.
  intros [Hne _]%list_elem_of_filter. by apply Hne.
Qed.

Lemma strings_Replace_byte_length (s : string) (old : ascii) :
  (String.length (strings_Replace_byte s old EmptyString)
   ≤ String.length s)%nat.
Proof.
  induction s as [| c s IH]; simpl; [done |].
  destruct (Ascii.eqb c old).
  - change (String.length (strings_Replace_byte s old EmptyString)
            ≤ S (String.length s))%nat. lia.
  - simpl. lia.
Qed.

Lemma create_options_Name (r : dockerRunner) command args volumes ports
    containerName :
  Name (create_options r command args volumes ports containerName)
  = strings_Replace_byte containerName ":" EmptyString.
Proof.
  unfold create_options. rewrite publish_ports_Name.
  by destruct (wire_volumes_fixed r
    (initial_options r command args
       (strings_Replace_byte containerName ":" EmptyString)) volumes)
    as (-> & _).
Qed.

(** X15: whatever the volumes, ports and name, the creation request is
    for the image and the user of the runner, has the command as its only
    entry point and the arguments as they were given, asks for a terminal
    and for all ports to be published, and does not ask for automatic
    removal. *)
Theorem create_options_fixed (r : dockerRunner) (command : string)
    (args : list string) (volumes : list Volume) (ports : list Z)
    (containerName : string) :
  let opts := create_options r command args volumes ports containerName in
  Image (Config opts) = image r
  ∧ Entrypoint (Config opts) = [command]
  ∧ Cmd (Config opts) = args
  ∧ Tty (Config opts) = true
  ∧ User (Config opts) = user r
  ∧ PublishAllPorts (HostConfig opts) = true
  ∧ AutoRemove (HostConfig opts) = false.
Proof.
  unfold create_options.
  destruct (publish_ports_fixed
    (wire_volumes r
       (initial_options r command args
          (strings_Replace_byte containerName ":" EmptyString)) volumes)
    ports) as (-> & -> & -> & -> & -> & -> & ->).
  destruct (wire_volumes_fixed r
    (initial_options r command args
       (strings_Replace_byte containerName ":" EmptyString)) volumes)
    as (_ & -> & _ & -> & ->).
  done.
Qed.

(** X16: the creation request depends on the ports only as a set: two
    lists with the same elements, in any order and with any repetition,
    give the same request. *)
Theorem create_options_ports_set (r : dockerRunner) (command : string)
    (args : list string) (volumes : list Volume) (ports1 ports2 : list Z)
    (containerName : string) :
  (∀ p, p ∈ ports1 ↔ p ∈ ports2) →
  create_options r command args volumes ports1 containerName
  = create_options r command args volumes ports2 containerName.
Proof.
  intros Hsame. unfold create_options.
  set (base := wire_volumes r
    (initial_options r command args
       (strings_Replace_byte containerName ":" EmptyString)) volumes).
  assert (Hkeys : list_to_set ((λ p, strconv_Itoa p +:+ "/tcp") <$> ports1)
                  =@{gset string}
                  list_to_set ((λ p, strconv_Itoa p +:+ "/tcp") <$> ports2)).
  { apply set_eq. intros k. rewrite !elem_of_list_to_set, !list_elem_of_fmap.
    split; intros (p & -> & Hp); exists p; (split; [done |]); by apply Hsame. }
  destruct (publish_ports_fixed base ports1)
    as (Hi1 & He1 & Hc1 & Ht1 & Hu1 & Hp1 & Ha1).
  destruct (publish_ports_fixed base ports2)
    as (Hi2 & He2 & Hc2 & Ht2 & Hu2 & Hp2 & Ha2).
  destruct (publish_ports_volumes base ports1) as [Hv1 Hb1].
  destruct (publish_ports_volumes base ports2) as [Hv2 Hb2].
  apply options_eq; try congruence.
  - by rewrite !publish_ports_Name.
  - by rewrite !publish_ports_exposed_set, Hkeys.
  - apply map_eq. intros k.
    destruct (PortBindings (HostConfig (fold_left publish_port ports1 base))
                !! k) as [v |] eqn:H1.
    + assert (Hsome : is_Some
        (PortBindings (HostConfig (fold_left publish_port ports1 base)) !! k))
        by (by rewrite H1).
      apply elem_of_dom in Hsome.
      rewrite publish_ports_bindings_keys, Hkeys,
        <- publish_ports_bindings_keys in Hsome.
      apply elem_of_dom, publish_ports_bindings_dom in Hsome
        as [(p & Hp & ->) | Hbase].
      * rewrite publish_ports_bindings in H1 by by apply Hsame.
        by rewrite publish_ports_bindings.
      * exfalso. destruct (wire_volumes_fixed r
          (initial_options r command args
             (strings_Replace_byte containerName ":" EmptyString)) volumes)
          as (_ & _ & Hpb & _).
        unfold base in Hbase. rewrite Hpb in Hbase. simpl in Hbase.
        rewrite lookup_empty in Hbase. by destruct Hbase.
    + symmetry. apply not_elem_of_dom.
      rewrite publish_ports_bindings_keys, <- Hkeys,
        <- publish_ports_bindings_keys.
      by apply not_elem_of_dom.
Qed.

(** X17: distinct ports never collide: for a list of ports without
    repetition, the request exposes as many ports and binds as many as
    the list is long. *)
Theorem create_options_distinct_ports (r : dockerRunner) (command : string)
    (args : list string) (volumes : list Volume) (ports : list Z)
    (containerName : string) :
  NoDup ports →
  let opts := create_options r command args volumes ports containerName in
  size (ExposedPorts (Config opts)) = length ports
  ∧ size (PortBindings (HostConfig opts)) = length ports.
Proof.
  intros Hnd. unfold create_options.
  set (base := wire_volumes r
    (initial_options r command args
       (strings_Replace_byte containerName ":" EmptyString)) volumes).
  destruct (wire_volumes_fixed r
    (initial_options r command args
       (strings_Replace_byte containerName ":" EmptyString)) volumes)
    as (_ & Hcfg & Hpb & _). fold base in Hcfg, Hpb.
  assert (Hsize : size (list_to_set
                    ((λ p, strconv_Itoa p +:+ "/tcp") <$> ports)
                    : gset string) = length ports).
  { rewrite size_list_to_set, length_fmap; [done |].
    apply NoDup_fmap; [apply port_key_inj | done]. }
  simpl. split.
  - rewrite publish_ports_exposed_set, Hcfg. simpl.
    by rewrite union_empty_r_L.
  - rewrite <- size_dom, publish_ports_bindings_keys, Hpb. simpl.
    by rewrite dom_empty_L, union_empty_r_L.
Qed.

(** X18: the name of the request has no colon and is no longer than the
    name supplied; a name without colons is used as it is, so cleaning a
    cleaned name changes nothing. *)
Theorem create_options_name_clean (r : dockerRunner) (command : string)
    (args : list string) (volumes : list Volume) (ports : list Z)
    (containerName : string) :
  let name' :=
    Name (create_options r command args volumes ports containerName) in
  (":"%char ∉ String.list_ascii_of_string name')
  ∧ (String.length name' ≤ String.length containerName)%nat
  ∧ (":"%char ∉ String.list_ascii_of_string containerName →
       name' = containerName)
  ∧ Name (create_options r command args volumes ports name') = name'.
Proof.
  simpl. rewrite !create_options_Name.
  split; [apply strings_Replace_byte_gone |].
  split; [apply strings_Replace_byte_length |].
  split; [apply strings_Replace_byte_clean |].
  apply strings_Replace_byte_clean, strings_Replace_byte_gone.
Qed.

Lemma create_options_ports_set_witness :
  create_options bind_runner "arangod" [] [] [8529; 8530; 8529] "n"
  = create_options bind_runner "arangod" [] [] [8530; 8529] "n".
Proof.
  apply create_options_ports_set. intros p.
  rewrite !elem_of_cons. rewrite !elem_of_nil. tauto.
Defined.

Lemma create_options_distinct_ports_witness :
  size (ExposedPorts (Config
          (create_options bind_runner "arangod" [] [] [8529; 8530] "n"))) = 2%nat.
Proof.
  destruct (create_options_distinct_ports bind_runner "arangod" [] []
              [8529; 8530] "n") as [Hexposed _]; [| exact Hexposed].
  repeat constructor; rewrite ?elem_of_cons, ?elem_of_nil; intros H;
    repeat destruct H as [H | H]; try discriminate H; done.
Defined.

Lemma create_options_name_clean_witness :
  Name (create_options bind_runner "arangod" [] [] [] "node1") = "node1".
Proof.
  destruct (create_options_name_clean bind_runner "arangod" [] [] [] "node1")
    as (_ & _ & Hclean & _).
  apply Hclean. simpl. rewrite !not_elem_of_cons.
  repeat split; try discriminate. apply not_elem_of_nil.
Defined.

(** ** The command line for further starters *)










Section CommandProperties.
Variable portOffsetIncrement : Z.


End CommandProperties.


